(** * ATS9371 for tomography: register feature gate and raw acquisition pipeline

    A shallow embedding of the two source files of the repository:

    - [src/ats9371.py]: the trigger-holdoff getter and setter of
      [AlazarTechATS9371] (module [ATS9371] below);
    - [src/raw_acq_ctrl.py]: [signal_to_volt], [process_buffer] and the
      [RawAcquisitionController] methods (module [RawAcq] below).

    Python integers are [Z], Python strings are [string], numpy [float64]
    values are the kernel's binary64 floats ([PrimFloat.float]), numpy arrays
    are lists (2-D arrays are lists of rows), exceptions are values of [exn]
    carried by a small state-and-exception monad. *)

From Stdlib Require Import ZArith String Ascii List Bool Lia.
From Stdlib Require Import Floats.PrimFloat Floats.SpecFloat.
From Stdlib Require Import Floats.FloatOps Floats.FloatAxioms.
From Stdlib Require Import Numbers.Cyclic.Int63.Uint63.
From Stdlib Require Import QArith Qabs.
From stdpp Require Import base list.
Import ListNotations.

Local Open Scope Z_scope.

(** ** Python exceptions, outcomes, and the state-and-exception monad *)

Inductive exn : Type :=
| IndexError
| ValueError
| AttributeError
| AssertionError
| TypingError
| InvalidVersion (s : string)
| RuntimeError (msg : string).

Inductive outcome (A : Type) : Type :=
| Return (a : A)
| Raise (e : exn).
Arguments Return {A} a.
Arguments Raise {A} e.

(** A computation over a mutable object of type [S]: it yields a value or
    raises, and in both cases leaves a state behind (a Python exception does
    not roll back the mutations done before it). *)
Definition M (S A : Type) : Type := S -> outcome A * S.

Definition ret {S A} (a : A) : M S A := fun s => (Return a, s).
Definition raise {S A} (e : exn) : M S A := fun s => (Raise e, s).
Definition bind {S A B} (c : M S A) (k : A -> M S B) : M S B :=
  fun s => match c s with
           | (Return a, s') => k a s'
           | (Raise e, s') => (Raise e, s')
           end.
Definition get_state {S} : M S S := fun s => (Return s, s).
Definition put_state {S} (s : S) : M S unit := fun _ => (Return tt, s).
Definition lift {S A} (o : outcome A) : M S A := fun s => (o, s).

Declare Scope py_scope.
Delimit Scope py_scope with py.
Notation "x <- c ;; k" := (bind c (fun x => k))
  (at level 100, c at next level, right associativity) : py_scope.
Notation "c ;;; k" := (bind c (fun _ => k))
  (at level 100, right associativity) : py_scope.

(** ** Python built-ins used by the driver *)

Module Py.

(** Binary digits of a positive number, most significant first. *)
Fixpoint bin_pos (p : positive) : string :=
  match p with
  | xH => "1"
  | xO q => bin_pos q ++ "0"
  | xI q => bin_pos q ++ "1"
  end%string.

(** [bin(n)]: ["0b"] and the digits, no leading zeros, a sign for
    negative numbers. *)
Definition bin (n : Z) : string :=
  match n with
  | Z0 => "0b0"
  | Zpos p => "0b" ++ bin_pos p
  | Zneg p => "-0b" ++ bin_pos p
  end%string.

(** [s[n:]] *)
Fixpoint slice_from (n : nat) (s : string) : string :=
  match n, s with
  | O, _ => s
  | S _, EmptyString => EmptyString
  | S k, String _ t => slice_from k t
  end.

(** [s[-k]] for [k > 0]: the character [k] places from the end, as a
    one-character string; [IndexError] when the string is shorter. *)
Definition index_from_end (s : string) (k : nat) : outcome string :=
  if (String.length s <? k)%nat then Raise IndexError
  else match String.get (String.length s - k) s with
       | Some c => Return (String c EmptyString)
       | None => Raise IndexError
       end.

(** [bool(s)] of a string: true exactly when it is not empty. *)
Definition bool_of_str (s : string) : bool :=
  match s with
  | EmptyString => false
  | String _ _ => true
  end.

(** [str(x)] of an optional string ([None] prints as ["None"]). *)
Definition str_of (x : option string) : string :=
  match x with
  | None => "None"
  | Some s => s
  end.


End Py.

(** ** numpy's 32-bit unsigned scalars *)

Module Np.

Definition uint32_modulus : Z := 2 ^ 32.

(** [np.uint32(x)], wrap-around written out. *)
Definition uint32 (x : Z) : Z := x mod uint32_modulus.

(** [~m] on a [uint32]. *)
Definition invert32 (m : Z) : Z := uint32 (Z.lnot m).

End Np.

(** ** The register feature gate of [src/ats9371.py] *)

Module ATS9371.

(** One access to a board register, as seen on the bus. *)
Inductive reg_io : Type :=
| RegRead (addr : Z)
| RegWrite (addr : Z) (value : Z).

(** The part of the instrument the gate touches: the firmware entry of
    [get_idn()] ([None] when the board reports no firmware string), the
    register file, and the log of register accesses, oldest first. *)
Record board : Type := mkBoard {
  idn_firmware : option string;
  registers : Z -> Z;
  io_log : list reg_io
}.

Definition _trigger_holdoff_min_fw_version : string := "30.04".

(** [self.get_idn()["firmware"]] *)
Definition get_idn_firmware : M board (option string) :=
  fun b => (Return (idn_firmware b), b).

(** Modelled from the spec: [_read_register] is inherited from the
    instrument base class, which is not part of the sources; the spec
    gives it as [readRegister(addr) -> uint32]. *)
Definition _read_register (addr : Z) : M board Z :=
  fun b => (Return (registers b addr),
            mkBoard (idn_firmware b) (registers b) (io_log b ++ [RegRead addr])).

(** Modelled from the spec: [_write_register] is inherited as well; the
    spec gives it as [writeRegister(addr, value)] on 32-bit registers. *)
Definition _write_register (addr value : Z) : M board unit :=
  fun b => (Return tt,
            mkBoard (idn_firmware b)
                    (fun a => if a =? addr then Np.uint32 value else registers b a)
                    (io_log b ++ [RegWrite addr value])).

Definition unsupported_firmware_message (required : string) (actual : option string)
  : string :=
  ("Alazar 9371 requires at least firmware version " ++ required
   ++ " for trigger holdoff support. You have version " ++ Py.str_of actual)%string.

Section Gate.

(** [packaging.version] is a third-party library: its [parse] and the
    order on parsed versions are parameters of the gate. [parse] gives
    [None] where the library raises [InvalidVersion]. *)
Variable version : Type.
Variable version_parse : string -> option version.
Variable version_lt : version -> version -> bool.

Definition parse (s : string) : M board version :=
  match version_parse s with
  | Some v => ret v
  | None => raise (InvalidVersion s)
  end.

(** The condition shared by the getter and the setter:
    [not isinstance(fwversion, str) or
     version.parse(fwversion) < version.parse(min)]. *)
Definition firmware_too_old (fwversion : option string) : M board bool :=
  match fwversion with
  | None => ret true
  | Some s =>
      (v <- parse s ;;
       m <- parse _trigger_holdoff_min_fw_version ;;
       ret (version_lt v m))%py
  end.

Definition _get_trigger_holdoff : M board bool :=
  (fwversion <- get_idn_firmware ;;
   old <- firmware_too_old fwversion ;;
   if old : bool then ret false
   else
     r <- _read_register 58 ;;
     let output := Np.uint32 r in
     let bitmask := Py.slice_from 2 (Py.bin output) in
     if (String.length bitmask <? 27)%nat then ret false
     else
       c <- lift (Py.index_from_end (Py.bin output) 27) ;;
       ret (Py.bool_of_str c))%py.

(** The masks are [uint32] scalars; with the 32-bit value the register
    read gives, [|] and [&] stay within 32 bits, and [int(new_value)] is
    that value. *)
Definition _set_trigger_holdoff (value : bool) : M board unit :=
  (fwversion <- get_idn_firmware ;;
   old <- firmware_too_old fwversion ;;
   if old : bool then
     raise (RuntimeError
              (unsupported_firmware_message _trigger_holdoff_min_fw_version fwversion))
   else
     current_value <- _read_register 58 ;;
     let new_value :=
       if value then
         let enable_mask := Np.uint32 (Z.shiftl 1 26) in
         Z.lor current_value enable_mask
       else
         let disable_mask := Np.invert32 (Np.uint32 (Z.shiftl 1 26)) in
         Z.land current_value disable_mask in
     _write_register 58 new_value)%py.

(** What the claims say of a firmware identity: the firmware string
    parses, and so does the minimum, and the order says [below]. *)
Definition firmware_parses (b : board) (below : bool) : Prop :=
  exists s v m,
    idn_firmware b = Some s /\ version_parse s = Some v /\
    version_parse _trigger_holdoff_min_fw_version = Some m /\
    version_lt v m = below.

Definition firmware_absent_or_below (b : board) : Prop :=
  idn_firmware b = None \/ firmware_parses b true.

End Gate.

(** *** An instance of the version parameters: plain release versions

    Dotted decimal components ("30.04", "29.10", "9"), compared as
    [packaging] compares release segments: numerically, component by
    component, after dropping trailing zero components. Any other string
    is rejected. *)

Definition digit_of (c : ascii) : option N :=
  let n := N_of_ascii c in
  if ((48 <=? n) && (n <=? 57))%N then Some (n - 48)%N else None.

Fixpoint parse_release_from (s : string) (cur : option N) (acc : list N)
  : option (list N) :=
  match s with
  | EmptyString =>
      match cur with
      | Some n => Some (rev (n :: acc))
      | None => None
      end
  | String c t =>
      if Ascii.eqb c "."%char then
        match cur with
        | Some n => parse_release_from t None (n :: acc)
        | None => None
        end
      else
        match digit_of c with
        | Some d =>
            parse_release_from t
              (Some (10 * match cur with Some n => n | None => 0 end + d)%N) acc
        | None => None
        end
  end.

Fixpoint drop_zeros (l : list N) : list N :=
  match l with
  | [] => []
  | n :: t => if (n =? 0)%N then drop_zeros t else l
  end.

Definition release_parse (s : string) : option (list N) :=
  match parse_release_from s None [] with
  | Some l => Some (rev (drop_zeros (rev l)))
  | None => None
  end.

(** Python's order on tuples of integers. *)
Fixpoint release_lt (a b : list N) : bool :=
  match a, b with
  | _, [] => false
  | [], _ :: _ => true
  | x :: a', y :: b' =>
      if (x <? y)%N then true
      else if (y <? x)%N then false
      else release_lt a' b'
  end.

(** A board whose register 58 holds [v] (the other registers read 0) and
    whose log is empty. *)
Definition board_with (fw : option string) (v : Z) : board :=
  mkBoard fw (fun a => if a =? 58 then v else 0) [].

Definition get_trigger_holdoff_release : M board bool :=
  _get_trigger_holdoff (list N) release_parse release_lt.

Definition set_trigger_holdoff_release (value : bool) : M board unit :=
  _set_trigger_holdoff (list N) release_parse release_lt value.

End ATS9371.

(** ** The raw acquisition controller of [src/raw_acq_ctrl.py] *)

Module RawAcq.

(** [volt = (signal - 32760) / 81900.0] on [float64]. *)
Definition signal_to_volt (signal : float) : float :=
  ((signal - 32760) / 81900.0)%float.

(** A raw ADC code (an integer of the 16-bit domain) as the [float64] that
    numpy makes of it when it is added into the [float64] raw buffer. *)
Definition float_of_code (c : Z) : float := PrimFloat.of_uint63 (Uint63.of_Z c).

(** *** Array primitives

    A 1-D array is a [list float], a 2-D array a list of rows, a 3-D array
    a list of 2-D arrays. *)

(** [np.zeros(n)] and [np.zeros((r, s))]. *)
Definition zeros (n : nat) : list float := replicate n 0%float.
Definition zeros2 (r s : nat) : list (list float) := replicate r (zeros s).

(** [a[i]] *)
Definition getitem (a : list float) (i : nat) : outcome float :=
  match a !! i with
  | Some x => Return x
  | None => Raise IndexError
  end.

(** [a[r, s] = v]. Compiled code does not check bounds: what a write
    outside the array does is not modelled, an index outside the array is a
    failure here, and the kernel is spoken of only where its indices stay
    inside the arrays, which the shapes of a prepared session ensure (see
    [prepared]). *)
Definition setitem2 (a : list (list float)) (r s : nat) (v : float)
  : outcome (list (list float)) :=
  match a !! r with
  | Some row =>
      if decide (s < length row)%nat
      then Return (<[r := <[s := v]> row]> a)
      else Raise IndexError
  | None => Raise IndexError
  end.

(** [for i in l: st = body(i, st)], stopping at the first exception. *)
Fixpoint for_each {St : Type} (l : list nat) (body : nat -> St -> outcome St) (st : St)
  : outcome St :=
  match l with
  | [] => Return st
  | i :: t =>
      match body i st with
      | Return st' => for_each t body st'
      | Raise e => Raise e
      end
  end.

(** [range(n)] *)
Definition range (n : nat) : list nat := seq 0 n.

(** The body of the inner loop of [process_buffer], on the pair of
    channel arrays. *)
Definition process_sample (buffer : list float) (n_samples r s : nat)
    (chans : list (list float) * list (list float))
  : outcome (list (list float) * list (list float)) :=
  let '(cha_A, cha_B) := chans in
  let i := ((r * n_samples + s) * 2)%nat in
  match getitem buffer i with
  | Raise e => Raise e
  | Return x =>
      match setitem2 cha_A r s ((x - 32760) / 81900.0)%float with
      | Raise e => Raise e
      | Return cha_A' =>
          match getitem buffer (i + 1) with
          | Raise e => Raise e
          | Return y =>
              match setitem2 cha_B r s ((y - 32760) / 81900.0)%float with
              | Raise e => Raise e
              | Return cha_B' => Return (cha_A', cha_B')
              end
          end
      end
  end.

(** The two loops of the kernel, the records taken in the order
    [schedule]. *)
Definition process_records (schedule : list nat) (buffer : list float)
    (cha_A cha_B : list (list float)) (n_samples : nat)
  : outcome (list (list float) * list (list float)) :=
  for_each schedule (fun r =>
    for_each (range n_samples) (fun s => process_sample buffer n_samples r s))
    (cha_A, cha_B).

(** The kernel: splits the interleaved buffer and converts to volt, writing
    into [cha_A] and [cha_B]; the arrays after the call are returned. The
    records are taken in increasing order here; [prange] may take them in
    any order, which gives the same arrays (see
    [process_buffer_any_schedule]). *)
Definition process_buffer (buffer : list float) (cha_A cha_B : list (list float))
    (n_records n_samples : nat) : outcome (list (list float) * list (list float)) :=
  process_records (range n_records) buffer cha_A cha_B n_samples.

(** [n] consecutive rows of [k] elements each (row-major order). *)
Fixpoint rows {A : Type} (n k : nat) (l : list A) : list (list A) :=
  match n with
  | O => []
  | S n' => take k l :: rows n' k (drop k l)
  end.

(** [buffer.reshape(records, -1, 2)]: the middle dimension is inferred;
    numpy refuses when the known dimensions multiply to zero or do not
    divide the size. *)
Definition reshape_records_pairs (buffer : list float) (records : nat)
  : outcome (list (list (list float))) :=
  let known := (records * 2)%nat in
  if decide (known = 0%nat) then Raise ValueError
  else if decide (length buffer mod known = 0)%nat then
    let inferred := (length buffer / known)%nat in
    Return (map (rows inferred 2) (rows records (inferred * 2) buffer))
  else Raise ValueError.

(** [reshaped[:, :, c]] *)
Definition slice_last (c : nat) (a : list (list (list float))) : list (list float) :=
  map (map (fun cell => nth c cell 0%float)) a.

(** *** The controller and the heap of its channel arrays

    [cha_A_buffer] and [cha_B_buffer] are references: the arrays they name
    live in the heap, where a caller holding the same reference sees every
    later in-place write. The attributes do not exist before
    [pre_start_capture]. *)
Record controller : Type := mkController {
  samples_per_record : nat;
  records_per_buffer : nat;
  buffers_per_acquisition : nat;
  number_of_channels : nat;
  buffer : option (list float);
  cha_A_buffer : option nat;
  cha_B_buffer : option nat
}.

Record world : Type := mkWorld {
  self : controller;
  heap : list (list (list float))
}.

(** The fields set by [__init__]. *)
Definition init_controller : controller :=
  mkController 0 0 0 2 None None None.

Definition alloc (a : list (list float)) : M world nat :=
  fun w => (Return (length (heap w)), mkWorld (self w) (heap w ++ [a])).

Definition load (l : nat) : M world (list (list float)) :=
  fun w => match heap w !! l with
           | Some a => (Return a, w)
           | None => (Raise AttributeError, w)
           end.

Definition store (l : nat) (a : list (list float)) : M world unit :=
  fun w => (Return tt, mkWorld (self w) (<[l := a]> (heap w))).

Definition attr {A : Type} (field : controller -> option A) : M world A :=
  fun w => match field (self w) with
           | Some x => (Return x, w)
           | None => (Raise AttributeError, w)
           end.

(** [np.subtract(x, c, out=<array at l>)]: the output array must have the
    shape of [x] (numpy would also stretch an axis of length one of [x];
    the arrays of a controller never have different shapes, see
    [prepared]). *)
Definition subtract_out (x : list (list float)) (c : float) (l : nat) : M world unit :=
  (old <- load l ;;
   if decide (map length x = map length old)
   then store l (map (map (fun v => (v - c)%float)) x)
   else raise ValueError)%py.

(** [<array at l> /= c] *)
Definition idiv (l : nat) (c : float) : M world unit :=
  (old <- load l ;;
   store l (map (map (fun v => (v / c)%float)) old))%py.

(** What both conversions end with: copies or the arrays themselves. *)
Definition result_arrays (copy : bool) (a b : nat) : M world (nat * nat) :=
  (if copy then
     a_arr <- load a ;;
     a' <- alloc a_arr ;;
     b_arr <- load b ;;
     b' <- alloc b_arr ;;
     ret (a', b')
   else ret (a, b))%py.

Definition numpy_get_alldata_from_buffer_in_volt (copy : bool) : M world (nat * nat) :=
  (w <- get_state ;;
   match buffer (self w) with
   | None => raise AttributeError
   | Some buf =>
       reshaped <- lift (reshape_records_pairs buf (records_per_buffer (self w))) ;;
       let cha_A_raw := slice_last 0 reshaped in
       let cha_B_raw := slice_last 1 reshaped in
       a <- attr cha_A_buffer ;;
       subtract_out cha_A_raw 32760%float a ;;;
       idiv a 81900.0%float ;;;
       b <- attr cha_B_buffer ;;
       subtract_out cha_B_raw 32760%float b ;;;
       idiv b 81900.0%float ;;;
       result_arrays copy a b
   end)%py.

Definition numba_get_alldata_from_buffer_in_volt (copy : bool) : M world (nat * nat) :=
  (w <- get_state ;;
   a <- attr cha_A_buffer ;;
   b <- attr cha_B_buffer ;;
   match buffer (self w) with
   | None => raise TypingError
   | Some buf =>
       cha_A <- load a ;;
       cha_B <- load b ;;
       out <- lift (process_buffer buf cha_A cha_B
                      (records_per_buffer (self w)) (samples_per_record (self w))) ;;
       store a (fst out) ;;;
       store b (snd out) ;;;
       result_arrays copy a b
   end)%py.

(** [pre_start_capture]: the three numbers are what the board's
    [samples_per_record], [records_per_buffer] and [buffers_per_acquisition]
    parameters give. *)
Definition pre_start_capture (samples records buffers : nat) : M world unit :=
  (w <- get_state ;;
   let c := self w in
   let n := (samples * records * number_of_channels c)%nat in
   a <- alloc (zeros2 records samples) ;;
   b <- alloc (zeros2 records samples) ;;
   w' <- get_state ;;
   put_state (mkWorld (mkController samples records buffers (number_of_channels c)
                                    (Some (zeros n)) (Some a) (Some b))
                      (heap w')))%py.

Definition pre_acquire : M world unit := ret tt.

(** [self.buffer += buffer], elementwise, on the delivered samples as the
    [float64] values numpy casts them to; numpy accepts a delivered array of
    the same length, or of length one (added to every element). *)
Definition iadd (acc delivered : list float) : outcome (list float) :=
  if decide (length delivered = length acc)
  then Return (zip_with PrimFloat.add acc delivered)
  else match delivered with
       | [x] => Return (map (fun v => (v + x)%float) acc)
       | _ => Raise ValueError
       end.

(** The controller with its raw buffer holding [buf] (the buffer is
    updated in place; the other fields stay). *)
Definition set_buffer (c : controller) (buf : list float) : controller :=
  mkController (samples_per_record c) (records_per_buffer c)
               (buffers_per_acquisition c) (number_of_channels c)
               (Some buf) (cha_A_buffer c) (cha_B_buffer c).

Definition handle_buffer (delivered : list float) (buffer_number : option Z)
  : M world unit :=
  (w <- get_state ;;
   match buffer (self w) with
   | None => raise AssertionError
   | Some buf =>
       buf' <- lift (iadd buf delivered) ;;
       put_state (mkWorld (set_buffer (self w) buf') (heap w))
   end)%py.

Definition post_acquire : M world unit := ret tt.

(** *** What the claims speak of *)

(** Either of the two conversions. *)
Inductive strategy : Type := Numpy | Numba.

Definition get_alldata (st : strategy) (copy : bool) : M world (nat * nat) :=
  match st with
  | Numpy => numpy_get_alldata_from_buffer_in_volt copy
  | Numba => numba_get_alldata_from_buffer_in_volt copy
  end.

(** [a[r][s]] of a 2-D array, and of the array a reference names. *)
Definition item2 (a : list (list float)) (r s : nat) : option float :=
  a !! r ≫= (.!! s).

Definition array_at (w : world) (l : nat) (r s : nat) : option float :=
  heap w !! l ≫= fun a => item2 a r s.

Definition has_shape (a : list (list float)) (r s : nat) : Prop :=
  length a = r /\ Forall (fun row => length row = s) a.

(** The algorithm as the specification words it: channel A is [c = 0],
    channel B is [c = 1], and element [r][s] of channel [c] is
    [voltage(raw[(r * samples + s) * 2 + c])]. *)
Definition demux_spec (c : nat) (raw : list float) (records samples : nat)
  : list (list float) :=
  (fun r => (fun s => signal_to_volt (nth ((r * samples + s) * 2 + c) raw 0%float))
              <$> seq 0 samples) <$> seq 0 records.

(** The state of the two channel arrays while [process_buffer] runs: the
    cells in [P] hold the converted samples, the others what they held in
    [old]. *)
Definition demuxed (buf : list float) (R S : nat) (P : nat -> nat -> Prop)
    (old new : list (list float) * list (list float)) : Prop :=
  has_shape (fst new) R S /\ has_shape (snd new) R S /\
  (forall r s, P r s ->
     item2 (fst new) r s = Some (signal_to_volt (nth ((r * S + s) * 2) buf 0%float)) /\
     item2 (snd new) r s = Some (signal_to_volt (nth ((r * S + s) * 2 + 1) buf 0%float))) /\
  (forall r s, ~ P r s ->
     item2 (fst new) r s = item2 (fst old) r s /\
     item2 (snd new) r s = item2 (snd old) r s).

(** A session after [pre_start_capture]: the raw buffer [buf] has the
    length the geometry asks for, and the two channel references name two
    different arrays of the geometry's shape. *)
Record prepared (w : world) (buf : list float) (a b : nat) : Prop := mkPrepared {
  prep_channels : number_of_channels (self w) = 2%nat;
  prep_buffer : buffer (self w) = Some buf;
  prep_length :
    length buf = (samples_per_record (self w) * records_per_buffer (self w) * 2)%nat;
  prep_cha_A : cha_A_buffer (self w) = Some a;
  prep_cha_B : cha_B_buffer (self w) = Some b;
  prep_distinct : a <> b;
  prep_shape_A : exists arr, heap w !! a = Some arr /\
      has_shape arr (records_per_buffer (self w)) (samples_per_record (self w));
  prep_shape_B : exists arr, heap w !! b = Some arr /\
      has_shape arr (records_per_buffer (self w)) (samples_per_record (self w))
}.

(** The world a conversion leaves behind before it hands out its result:
    the two channel arrays overwritten in place. *)
Definition converted (w : world) (buf : list float) (a b : nat) : world :=
  mkWorld (self w)
    (<[b := demux_spec 1 buf (records_per_buffer (self w)) (samples_per_record (self w))]>
       (<[a := demux_spec 0 buf (records_per_buffer (self w)) (samples_per_record (self w))]>
          (heap w))).

(** A controller fresh from [__init__], nothing allocated yet. *)
Definition init_world : world := mkWorld init_controller [].

(** What a caller does to a session after a conversion: deliveries and
    further conversions, in any order. *)
Inductive op : Type :=
| Deliver (delivered : list float) (buffer_number : option Z)
| Convert (st : strategy) (copy : bool).

Definition run_op (o : op) : M world unit :=
  match o with
  | Deliver d n => handle_buffer d n
  | Convert st copy => (get_alldata st copy ;;; ret tt)%py
  end.

Fixpoint run_ops (l : list op) : M world unit :=
  match l with
  | [] => ret tt
  | o :: t => (run_op o ;;; run_ops t)%py
  end.

(** [x] is [y] to six decimal places (within [2^-21], a little under
    [5e-7]). *)
Definition approx (x y : float) : bool := (abs (x - y) <? 0x1p-21)%float.

#[warnings="-inexact-float"]
Definition volt_0_000977 : float := 0.000977%float.

(** The 16-bit domain of the raw codes. *)
Definition is_code (c : Z) : Prop := 0 <= c < 65536.

(** [P] on the [n] codes from [c] on. *)
Fixpoint all_codes_from (P : Z -> bool) (c : Z) (n : nat) : bool :=
  match n with
  | O => true
  | S k => P c && all_codes_from P (c + 1) k
  end.

(** The rational a finite float stands for. *)
Definition float_to_Q (x : float) : option Q :=
  match Prim2SF x with
  | S754_zero _ => Some 0%Q
  | S754_finite s m e => Some (inject_Z (if s then Z.neg m else Z.pos m) * Qpower 2 e)%Q
  | _ => None
  end.

(** The reference formula of the specification, in exact arithmetic. *)
Definition reference_volt (c : Z) : Q := (inject_Z (c - 32760) / 81900)%Q.

(** The code [c] is a float exactly, and its voltage is the reference
    value up to a relative error of [2^-53] (half the float epsilon). *)
Definition volt_within_rounding (c : Z) : bool :=
  match float_to_Q (float_of_code c), float_to_Q (signal_to_volt (float_of_code c)) with
  | Some qc, Some q =>
      Qeq_bool qc (inject_Z c) &&
      Qle_bool (Qabs (q - reference_volt c) * inject_Z (2 ^ 53)) (Qabs (reference_volt c))
  | _, _ => false
  end.

(** Two deliveries of the code [c] into a zeroed cell give twice one
    delivery. *)
Definition code_doubles (c : Z) : bool :=
  let x := float_of_code c in
  Leibniz.eqb ((0 + x) + x)%float (2 * (0 + x))%float.

(** *** Example sessions *)

(** The end-to-end scenario: 256 samples per record, 2 records per buffer,
    each record the pattern [32760, 32760, 32840, 32680] over and over. *)
Definition example_record : list Z :=
  concat (replicate 128 [32760; 32760; 32840; 32680]).

Definition example_raw : list float :=
  float_of_code <$> (example_record ++ example_record).

Definition example_session : world :=
  snd ((pre_start_capture 256 2 1 ;;; pre_acquire ;;;
        handle_buffer example_raw (Some 0))%py init_world).

(** A session whose board is set to zero records per buffer. *)
Definition empty_session : world := snd (pre_start_capture 256 0 1 init_world).

(** A small session: 2 samples per record, 2 records per buffer. *)
Definition small_raw : list float :=
  float_of_code <$> [32760; 32760; 32840; 32680; 0; 65535; 100; 200].

Definition small_session : world :=
  snd ((pre_start_capture 2 2 1 ;;; pre_acquire ;;;
        handle_buffer small_raw (Some 0))%py init_world).

Definition small_empty_session : world := snd (pre_start_capture 2 2 1 init_world).

(** A delivery of the length of the raw buffer; a conversion is always
    admissible. *)
Definition op_fits (n : nat) (o : op) : Prop :=
  match o with
  | Deliver d _ => length d = n
  | Convert _ _ => True
  end.

End RawAcq.

(** ** Further definitions for the properties beyond the claims *)

Module Holdoff.

(** The word [_set_trigger_holdoff(value)] computes from the register's
    current value and writes back. *)
Definition holdoff_word (value : bool) (current_value : Z) : Z :=
  if value then Z.lor current_value (Np.uint32 (Z.shiftl 1 26))
  else Z.land current_value (Np.invert32 (Np.uint32 (Z.shiftl 1 26))).

End Holdoff.

Module Frame.
Import RawAcq.

(** What a conversion started in [w0] may have done by the time the world
    is [w]: the controller is as it was, the heap has not shrunk, and every
    array of [w0] other than the two the channel references name is as it
    was. *)
Definition conversion_frame (w0 w : world) : Prop :=
  self w = self w0 /\
  (length (heap w0) <= length (heap w))%nat /\
  forall l, (l < length (heap w0))%nat ->
    cha_A_buffer (self w0) <> Some l -> cha_B_buffer (self w0) <> Some l ->
    heap w !! l = heap w0 !! l.

(** [l] is one of the two channel references of the controller of [w0]. *)
Definition is_channel (w0 : world) (l : nat) : Prop :=
  cha_A_buffer (self w0) = Some l \/ cha_B_buffer (self w0) = Some l.

(** 16-bit codes that a zeroed cell takes in unchanged. *)
Definition code_kept_from_zero (c : Z) : bool :=
  Leibniz.eqb (0 + float_of_code c)%float (float_of_code c).

(** One acquisition as the driver's [acquire] runs it for one buffer,
    followed by a conversion. *)
Definition acquire_one_buffer (samples records buffers : nat)
    (delivered : list float) (buffer_number : option Z)
    (st : strategy) (copy : bool) : M world (nat * nat) :=
  (pre_start_capture samples records buffers ;;;
   pre_acquire ;;;
   handle_buffer delivered buffer_number ;;;
   post_acquire ;;;
   get_alldata st copy)%py.

End Frame.

From Stdlib Require Import DecimalString.

Module Lifetime.
Import RawAcq Frame.

(** What a caller may do with a controller, in any order: prepare a
    session, deliver, convert. *)
Inductive session_op : Type :=
| Prepare (samples records buffers : nat)
| Use (o : op).

Definition run_session_op (o : session_op) : M world unit :=
  match o with
  | Prepare samples records buffers => pre_start_capture samples records buffers
  | Use o => run_op o
  end.

(** The operations in turn, stopping at the first exception. *)
Fixpoint run_session (l : list session_op) : M world unit :=
  match l with
  | [] => ret tt
  | o :: t => (run_session_op o ;;; run_session t)%py
  end.

(** The states a controller is in between calls: as [__init__] left it
    (no raw buffer, no channel arrays, whatever arrays the program holds
    otherwise), or prepared by [pre_start_capture]. *)
Definition session_state (w : world) : Prop :=
  self w = init_controller \/ exists buf a b, prepared w buf a b.

(** The arrays of [w0] that are not channel arrays of its controller are
    in [w] as they were, and are not channel arrays of the controller of
    [w] either; the heap has not shrunk. *)
Definition bystanders_kept (w0 w : world) : Prop :=
  (length (heap w0) <= length (heap w))%nat /\
  forall l, (l < length (heap w0))%nat -> ~ is_channel w0 l ->
    heap w !! l = heap w0 !! l /\ ~ is_channel w l.

End Lifetime.

(** *** The val-mapped parameters the constructor of the board declares *)

Module Config.

(** The keys and raw values of the mappings: integers, strings, floats. No
    mapping of the driver mixes integer and float keys. *)
Inductive pyval : Type :=
| PyInt (n : Z)
| PyStr (s : string)
| PyFloat (x : float).

Definition pyval_eqb (x y : pyval) : bool :=
  match x, y with
  | PyInt a, PyInt b => a =? b
  | PyStr a, PyStr b => String.eqb a b
  | PyFloat a, PyFloat b => Leibniz.eqb a b
  | _, _ => false
  end.

Fixpoint memb (x : pyval) (l : list pyval) : bool :=
  match l with
  | [] => false
  | y :: t => pyval_eqb x y || memb x t
  end.

Fixpoint nodupb (l : list pyval) : bool :=
  match l with
  | [] => true
  | x :: t => negb (memb x t) && nodupb t
  end.

(** A parameter declared with a [val_mapping]: its name, its initial
    value, and the mapping in the order it is written. *)
Record mapped_parameter : Type := mkMapped {
  name : string;
  initial_value : pyval;
  val_mapping : list (pyval * pyval)
}.

(** [str(i)] *)
Definition str_of_nat (i : nat) : string := NilEmpty.string_of_uint (Nat.to_uint i).

Definition clock_source : mapped_parameter :=
  mkMapped "clock_source" (PyStr "INTERNAL_CLOCK")
    [(PyStr "INTERNAL_CLOCK", PyInt 1);
     (PyStr "FAST_EXTERNAL_CLOCK", PyInt 2);
     (PyStr "EXTERNAL_CLOCK_10MHz_REF", PyInt 7)].

Definition sample_rate_val_mapping : list (pyval * pyval) :=
  [(PyInt 1000, PyInt 1);
   (PyInt 2000, PyInt 2);
   (PyInt 5000, PyInt 4);
   (PyInt 10000, PyInt 8);
   (PyInt 20000, PyInt 10);
   (PyInt 50000, PyInt 12);
   (PyInt 100000, PyInt 14);
   (PyInt 200000, PyInt 16);
   (PyInt 500000, PyInt 18);
   (PyInt 1000000, PyInt 20);
   (PyInt 2000000, PyInt 24);
   (PyInt 5000000, PyInt 26);
   (PyInt 10000000, PyInt 28);
   (PyInt 20000000, PyInt 30);
   (PyInt 25000000, PyInt 33);
   (PyInt 50000000, PyInt 34);
   (PyInt 100000000, PyInt 36);
   (PyInt 125000000, PyInt 37);
   (PyInt 160000000, PyInt 38);
   (PyInt 180000000, PyInt 39);
   (PyInt 200000000, PyInt 40);
   (PyInt 250000000, PyInt 43);
   (PyInt 500000000, PyInt 48);
   (PyInt 800000000, PyInt 50);
   (PyInt 1000000000, PyInt 53);
   (PyStr "EXTERNAL_CLOCK", PyInt 64);
   (PyStr "UNDEFINED", PyStr "UNDEFINED")].

Definition sample_rate : mapped_parameter :=
  mkMapped "sample_rate" (PyStr "UNDEFINED") sample_rate_val_mapping.

Definition clock_edge : mapped_parameter :=
  mkMapped "clock_edge" (PyStr "CLOCK_EDGE_RISING")
    [(PyStr "CLOCK_EDGE_RISING", PyInt 0); (PyStr "CLOCK_EDGE_FALLING", PyInt 1)].

(** The body of [for i in range(1, self.channels+1)]. *)
#[warnings="-inexact-float"]
Definition channel_parameters (i : nat) : list mapped_parameter :=
  [mkMapped ("coupling" ++ str_of_nat i) (PyStr "DC")
     [(PyStr "AC", PyInt 1); (PyStr "DC", PyInt 2)];
   mkMapped ("channel_range" ++ str_of_nat i) (PyFloat 0.4)
     [(PyFloat 0.4, PyInt 7)];
   mkMapped ("impedance" ++ str_of_nat i) (PyInt 50)
     [(PyInt 50, PyInt 2)]]%string.

Definition trigger_operation : mapped_parameter :=
  mkMapped "trigger_operation" (PyStr "TRIG_ENGINE_OP_J")
    [(PyStr "TRIG_ENGINE_OP_J", PyInt 0);
     (PyStr "TRIG_ENGINE_OP_K", PyInt 1);
     (PyStr "TRIG_ENGINE_OP_J_OR_K", PyInt 2);
     (PyStr "TRIG_ENGINE_OP_J_AND_K", PyInt 3);
     (PyStr "TRIG_ENGINE_OP_J_XOR_K", PyInt 4);
     (PyStr "TRIG_ENGINE_OP_J_AND_NOT_K", PyInt 5);
     (PyStr "TRIG_ENGINE_OP_NOT_J_AND_K", PyInt 6)].

Definition n_trigger_engines : nat := 2.

(** The val-mapped part of the body of
    [for i in range(1, n_trigger_engines+1)]. *)
Definition trigger_parameters (i : nat) : list mapped_parameter :=
  [mkMapped ("trigger_engine" ++ str_of_nat i)
     (PyStr ("TRIG_ENGINE_" ++ (if (i =? 1)%nat then "J" else "K")))
     [(PyStr "TRIG_ENGINE_J", PyInt 0); (PyStr "TRIG_ENGINE_K", PyInt 1)];
   mkMapped ("trigger_source" ++ str_of_nat i) (PyStr "EXTERNAL")
     [(PyStr "CHANNEL_A", PyInt 0);
      (PyStr "CHANNEL_B", PyInt 1);
      (PyStr "EXTERNAL", PyInt 2);
      (PyStr "DISABLE", PyInt 3)];
   mkMapped ("trigger_slope" ++ str_of_nat i) (PyStr "TRIG_SLOPE_POSITIVE")
     [(PyStr "TRIG_SLOPE_POSITIVE", PyInt 1); (PyStr "TRIG_SLOPE_NEGATIVE", PyInt 2)]]%string.

Definition disabled_enabled (name : string) (initial : string) (enabled : Z)
  : mapped_parameter :=
  mkMapped name (PyStr initial) [(PyStr "DISABLED", PyInt 0); (PyStr "ENABLED", PyInt enabled)].

(** The val-mapped parameters after the trigger loop, in the order of the
    source. *)
Definition later_parameters : list mapped_parameter :=
  [mkMapped "external_trigger_coupling" (PyStr "DC")
     [(PyStr "AC", PyInt 1); (PyStr "DC", PyInt 2)];
   mkMapped "external_trigger_range" (PyStr "ETR_2V5")
     [(PyStr "ETR_TTL", PyInt 2); (PyStr "ETR_2V5", PyInt 3)];
   mkMapped "aux_io_mode" (PyStr "AUX_IN_AUXILIARY")
     [(PyStr "AUX_OUT_TRIGGER", PyInt 0);
      (PyStr "AUX_IN_TRIGGER_ENABLE", PyInt 1);
      (PyStr "AUX_IN_AUXILIARY", PyInt 13)];
   mkMapped "aux_io_param" (PyStr "NONE")
     [(PyStr "NONE", PyInt 0);
      (PyStr "TRIG_SLOPE_POSITIVE", PyInt 1);
      (PyStr "TRIG_SLOPE_NEGATIVE", PyInt 2)];
   mkMapped "mode" (PyStr "NPT") [(PyStr "NPT", PyInt 0x200); (PyStr "TS", PyInt 0x400)];
   mkMapped "channel_selection" (PyStr "AB")
     [(PyStr "A", PyInt 1); (PyStr "B", PyInt 2); (PyStr "AB", PyInt 3)];
   disabled_enabled "external_startcapture" "ENABLED" 0x1;
   disabled_enabled "enable_record_headers" "DISABLED" 0x8;
   disabled_enabled "alloc_buffers" "DISABLED" 0x20;
   disabled_enabled "fifo_only_streaming" "DISABLED" 0x800;
   disabled_enabled "interleave_samples" "DISABLED" 0x1000;
   disabled_enabled "get_processed_data" "DISABLED" 0x2000].

(** Every parameter the constructor declares with a [val_mapping];
    [channels] is the channel count of the board's base class. *)
Definition mapped_parameters (channels : nat) : list mapped_parameter :=
  [clock_source; sample_rate; clock_edge]
  ++ flat_map channel_parameters (seq 1 channels)
  ++ [trigger_operation]
  ++ flat_map trigger_parameters (seq 1 n_trigger_engines)
  ++ later_parameters.

(** The mapping has no key twice and no raw value twice, and the initial
    value is one of its keys. *)
Definition well_formedb (p : mapped_parameter) : bool :=
  nodupb (map fst (val_mapping p)) && nodupb (map snd (val_mapping p))
  && memb (initial_value p) (map fst (val_mapping p)).

(** Of two entries with integer key and integer raw value, the one with
    the larger key has the larger raw value. *)
Definition same_order (e1 e2 : pyval * pyval) : bool :=
  match e1, e2 with
  | (PyInt r1, PyInt c1), (PyInt r2, PyInt c2) => Bool.eqb (r1 <? r2) (c1 <? c2)
  | _, _ => true
  end.

End Config.

(** ** Facts about the register feature gate *)

Module GateFacts.
Import ATS9371.


Lemma string_length_app (s t : string) :
  String.length (s ++ t) = (String.length s + String.length t)%nat.
Proof. induction s as [|c s IH]; simpl; [reflexivity | now rewrite IH]. Qed.

Lemma bin_pos_length (p : positive) : String.length (Py.bin_pos p) = Pos.size_nat p.
Proof.
  induction p as [q IH | q IH |]; simpl; trivial;
    rewrite string_length_app, IH; simpl; lia.
Qed.

Lemma size_nat_bounds (p : positive) :
  Z.pos p < 2 ^ Z.of_nat (Pos.size_nat p) <= 2 * Z.pos p.
Proof.
  induction p as [q IH | q IH |]; simpl Pos.size_nat;
    rewrite ?Nat2Z.inj_succ, ?Z.pow_succ_r by lia; simpl; lia.
Qed.

(** The digit string of a register value is shorter than 27 characters
    exactly when the value is below [2^26]. *)
Lemma bitmask_short (v : Z) :
  0 <= v ->
  (String.length (Py.slice_from 2 (Py.bin v)) <? 27)%nat = (v <? 2 ^ 26).
Proof.
  intros Hv. destruct v as [|p|p]; [reflexivity | | lia].
  cbn [Py.bin Py.slice_from append]. rewrite bin_pos_length.
  pose proof (size_nat_bounds p) as [Hlt Hle].
  destruct (Nat.ltb_spec (Pos.size_nat p) 27) as [Hs|Hs];
    destruct (Z.ltb_spec (Z.pos p) (2 ^ 26)) as [Hp|Hp]; trivial; exfalso.
  - assert (2 ^ Z.of_nat (Pos.size_nat p) <= 2 ^ 26) by (apply Z.pow_le_mono_r; lia).
    lia.
  - assert (2 ^ 27 <= 2 ^ Z.of_nat (Pos.size_nat p)) by (apply Z.pow_le_mono_r; lia).
    change (2 ^ 27) with (2 * 2 ^ 26) in *. lia.
Qed.

Lemma string_get_in_range (s : string) (n : nat) :
  (n < String.length s)%nat -> exists c, String.get n s = Some c.
Proof.
  revert n. induction s as [|c s IH]; simpl; intros n Hn; [lia|].
  destruct n as [|n]; [eauto | apply IH; lia].
Qed.

(** Indexing from the end succeeds on a long enough string, and what it
    gives is a one-character string: [bool] of it is true. *)
Lemma bool_of_index_from_end (s : string) (k : nat) :
  (0 < k <= String.length s)%nat ->
  exists c, Py.index_from_end s k = Return c /\ Py.bool_of_str c = true.
Proof.
  intros Hk. unfold Py.index_from_end.
  destruct (Nat.ltb_spec (String.length s) k) as [?|_]; [lia|].
  destruct (string_get_in_range s (String.length s - k)) as [c ->]; [lia|].
  eexists; split; reflexivity.
Qed.

Lemma bin_length_ge (v : Z) :
  (String.length (Py.slice_from 2 (Py.bin v)) <= String.length (Py.bin v))%nat.
Proof. destruct v; simpl; lia. Qed.

Lemma uint32_range (x : Z) : 0 <= Np.uint32 x < 2 ^ 32.
Proof. unfold Np.uint32, Np.uint32_modulus. apply Z.mod_pos_bound. lia. Qed.

Lemma uint32_small (x : Z) : 0 <= x < 2 ^ 32 -> Np.uint32 x = x.
Proof. intros H. unfold Np.uint32, Np.uint32_modulus. now apply Z.mod_small. Qed.

Lemma testbit_above_32 (v i : Z) :
  0 <= v < 2 ^ 32 -> 32 <= i -> Z.testbit v i = false.
Proof.
  intros Hv Hi. rewrite <- (Z.mod_small v (2 ^ 32)) by lia.
  apply Z.mod_pow2_bits_high. lia.
Qed.

Lemma fits_32_of_bits (n : Z) :
  (forall i, 32 <= i -> Z.testbit n i = false) -> 0 <= n < 2 ^ 32.
Proof.
  intros Hhigh. replace n with (n mod 2 ^ 32); [apply Z.mod_pos_bound; lia|].
  apply Z.bits_inj'. intros i Hi. rewrite Z.testbit_mod_pow2 by lia.
  destruct (Z.ltb_spec i 32) as [?|Hge]; [reflexivity|].
  now rewrite Hhigh.
Qed.

(** Or-ing with [1 << 26] sets bit 26 and nothing else. *)
Lemma lor_bit_26 (v : Z) :
  0 <= v < 2 ^ 32 ->
  0 <= Z.lor v (Z.shiftl 1 26) < 2 ^ 32 /\
  Z.testbit (Z.lor v (Z.shiftl 1 26)) 26 = true /\
  forall i, i <> 26 -> Z.testbit (Z.lor v (Z.shiftl 1 26)) i = Z.testbit v i.
Proof.
  intros Hv. rewrite Z.shiftl_1_l.
  assert (Hbits : forall i, Z.testbit (Z.lor v (2 ^ 26)) i = Z.testbit v i || (26 =? i)).
  { intros i. rewrite Z.lor_spec. f_equal. destruct (Z.neg_nonneg_cases i).
    - rewrite Z.testbit_neg_r by lia. symmetry. apply Z.eqb_neq. lia.
    - apply Z.pow2_bits_eqb. lia. }
  split; [|split].
  - apply fits_32_of_bits. intros i Hi. rewrite Hbits, testbit_above_32 by lia.
    apply Z.eqb_neq. lia.
  - rewrite Hbits. apply orb_true_r.
  - intros i Hi. rewrite Hbits. replace (26 =? i) with false; [apply orb_false_r|].
    symmetry. apply Z.eqb_neq. lia.
Qed.

(** And-ing with the 32-bit complement of [1 << 26] clears bit 26 and
    nothing else. *)
Lemma land_not_bit_26 (v : Z) :
  0 <= v < 2 ^ 32 ->
  0 <= Z.land v (Np.invert32 (Z.shiftl 1 26)) < 2 ^ 32 /\
  Z.testbit (Z.land v (Np.invert32 (Z.shiftl 1 26))) 26 = false /\
  forall i, i <> 26 -> Z.testbit (Z.land v (Np.invert32 (Z.shiftl 1 26))) i = Z.testbit v i.
Proof.
  intros Hv.
  assert (Hmask : forall i, 0 <= i ->
            Z.testbit (Np.invert32 (Z.shiftl 1 26)) i = (i <? 32) && negb (26 =? i)).
  { intros i Hi. unfold Np.invert32, Np.uint32, Np.uint32_modulus.
    rewrite Z.testbit_mod_pow2, Z.lnot_spec, Z.shiftl_1_l, Z.pow2_bits_eqb by lia.
    reflexivity. }
  split; [|split].
  - apply fits_32_of_bits. intros i Hi.
    rewrite Z.land_spec, testbit_above_32 by lia. reflexivity.
  - rewrite Z.land_spec, Hmask by lia. apply andb_false_r.
  - intros i Hi. rewrite Z.land_spec. destruct (Z.neg_nonneg_cases i).
    + now rewrite !Z.testbit_neg_r by lia.
    + rewrite Hmask by lia. destruct (Z.ltb_spec i 32).
      * replace (26 =? i) with false; [apply andb_true_r|].
        symmetry. apply Z.eqb_neq. lia.
      * rewrite testbit_above_32 by lia. reflexivity.
Qed.

Section GateProofs.

Variable version : Type.
Variable version_parse : string -> option version.
Variable version_lt : version -> version -> bool.

Abbreviation getter := (_get_trigger_holdoff version version_parse version_lt).
Abbreviation setter := (_set_trigger_holdoff version version_parse version_lt).
Abbreviation too_old := (firmware_too_old version version_parse version_lt).
Abbreviation firmware_parses := (firmware_parses version version_parse version_lt).
Abbreviation firmware_absent_or_below :=
  (firmware_absent_or_below version version_parse version_lt).

Lemma too_old_parses (b : board) (below : bool) :
  firmware_parses b below -> too_old (idn_firmware b) b = (Return below, b).
Proof.
  intros (s & v & m & -> & Hs & Hm & <-).
  unfold firmware_too_old, bind, parse. rewrite Hs. cbn. rewrite Hm. reflexivity.
Qed.

Lemma too_old_absent (b : board) :
  idn_firmware b = None -> too_old (idn_firmware b) b = (Return true, b).
Proof. intros ->. reflexivity. Qed.

(** The version check never touches the board, whatever it answers. *)
Lemma too_old_frame (fw : option string) (b : board) : snd (too_old fw b) = b.
Proof.
  destruct fw as [s|]; [|reflexivity].
  unfold firmware_too_old, bind, parse.
  destruct (version_parse s); cbn; [|reflexivity].
  destruct (version_parse _trigger_holdoff_min_fw_version); reflexivity.
Qed.


(** What the getter computes on supported firmware: whether the register
    value is at least [2^26]. *)
Lemma getter_supported (b : board) :
  firmware_parses b false ->
  getter b =
    (Return (2 ^ 26 <=? Np.uint32 (registers b 58)),
     mkBoard (idn_firmware b) (registers b) (io_log b ++ [RegRead 58])).
Proof.
  intros Hfw. unfold _get_trigger_holdoff, bind at 1, get_idn_firmware.
  unfold bind at 1. rewrite (too_old_parses _ _ Hfw).
  unfold bind, _read_register, lift, ret.
  set (v := Np.uint32 (registers b 58)).
  pose proof (uint32_range (registers b 58)) as Hv. fold v in Hv.
  rewrite bitmask_short by lia.
  rewrite (Z.leb_antisym v (2 ^ 26)).
  destruct (Z.ltb_spec v (2 ^ 26)) as [Hlt|Hge]; [reflexivity|].
  destruct (bool_of_index_from_end (Py.bin v) 27) as (c & -> & ->); [|reflexivity].
  pose proof (bin_length_ge v) as Hlen.
  assert (Hs : (String.length (Py.slice_from 2 (Py.bin v)) <? 27)%nat = false).
  { rewrite bitmask_short by lia. apply Z.ltb_ge. exact Hge. }
  apply Nat.ltb_ge in Hs. lia.
Qed.

Lemma getter_unsupported (b : board) :
  firmware_absent_or_below b -> getter b = (Return false, b).
Proof.
  intros Hold. unfold _get_trigger_holdoff, bind at 1, get_idn_firmware.
  unfold bind at 1.
  destruct Hold as [Hnone | Hbelow].
  - rewrite (too_old_absent _ Hnone). reflexivity.
  - rewrite (too_old_parses _ _ Hbelow). reflexivity.
Qed.

Lemma getter_malformed (b : board) (s : string) :
  idn_firmware b = Some s -> version_parse s = None ->
  getter b = (Raise (InvalidVersion s), b).
Proof.
  intros Hfw Hs. unfold _get_trigger_holdoff, bind at 1, get_idn_firmware.
  unfold bind at 1. rewrite Hfw.
  unfold firmware_too_old, bind, parse. rewrite Hs. reflexivity.
Qed.


(** The setter, one step unfolded: the version check, then the rest. *)
Lemma setter_unfold (value : bool) (b : board) :
  setter value b =
    match too_old (idn_firmware b) b with
    | (Return true, b') =>
        (Raise (RuntimeError
                  (unsupported_firmware_message _trigger_holdoff_min_fw_version
                     (idn_firmware b))), b')
    | (Return false, b') =>
        (current_value <- _read_register 58 ;;
         _write_register 58
           (if value then Z.lor current_value (Np.uint32 (Z.shiftl 1 26))
            else Z.land current_value (Np.invert32 (Np.uint32 (Z.shiftl 1 26)))))%py b'
    | (Raise e, b') => (Raise e, b')
    end.
Proof.
  unfold _set_trigger_holdoff, bind at 1, get_idn_firmware. unfold bind at 1.
  destruct (too_old (idn_firmware b) b) as [[[|]|e] b']; reflexivity.
Qed.

(** The setter, by the answer of the version check. *)
Lemma setter_cases (value : bool) (b : board) :
  match fst (too_old (idn_firmware b) b) with
  | Return true =>
      setter value b =
        (Raise (RuntimeError
                  (unsupported_firmware_message _trigger_holdoff_min_fw_version
                     (idn_firmware b))), b)
  | Return false =>
      fst (setter value b) = Return tt /\
      exists new_value,
        io_log (snd (setter value b)) = io_log b ++ [RegRead 58; RegWrite 58 new_value]
  | Raise e => setter value b = (Raise e, b)
  end.
Proof.
  pose proof (too_old_frame (idn_firmware b) b) as Hframe.
  rewrite setter_unfold.
  destruct (too_old (idn_firmware b) b) as [[[|]|e] b'];
    cbn in Hframe |- *; subst b'; try reflexivity.
  split; [reflexivity|]. eexists. rewrite <- app_assoc. reflexivity.
Qed.

Lemma setter_supported (value : bool) (b : board) :
  firmware_parses b false ->
  let new_value :=
    if value then Z.lor (registers b 58) (Z.shiftl 1 26)
    else Z.land (registers b 58) (Np.invert32 (Z.shiftl 1 26)) in
  setter value b =
    (Return tt,
     mkBoard (idn_firmware b)
       (fun a => if a =? 58 then Np.uint32 new_value else registers b a)
       ((io_log b ++ [RegRead 58]) ++ [RegWrite 58 new_value])).
Proof.
  intros Hfw. unfold _set_trigger_holdoff, bind at 1, get_idn_firmware.
  unfold bind at 1. rewrite (too_old_parses _ _ Hfw).
  unfold bind, _read_register, _write_register. cbn.
  destruct value; reflexivity.
Qed.


(** C7 (as amended): when the firmware version is absent (not a string) or
    parses below the minimum "30.04", [_get_trigger_holdoff] returns [False]
    and leaves the board as it was, so no register is read; a firmware
    string the version parser rejects is not caught: the parser's
    [InvalidVersion] propagates, again without a register read. *)
Theorem get_trigger_holdoff_unsupported_firmware (b : board) :
  (firmware_absent_or_below b -> getter b = (Return false, b)) /\
  (forall s, idn_firmware b = Some s -> version_parse s = None ->
             getter b = (Raise (InvalidVersion s), b)).
Proof.
  split.
  - apply getter_unsupported.
  - apply getter_malformed.
Qed.


(** C9: on supported firmware and a 32-bit value [v] in register 58,
    [_set_trigger_holdoff(True)] writes back [v | (1 << 26)] and
    [_set_trigger_holdoff(False)] writes back [v & ~(1 << 26)] (the
    complement taken on 32 bits, [0xFBFFFFFF]); the written value is a
    32-bit value whose bit 26 is the requested one and whose other bits are
    those of [v]; the access is one read of register 58 and one write. *)
Theorem set_trigger_holdoff_read_modify_write (value : bool) (b : board) :
  firmware_parses b false ->
  0 <= registers b 58 < 2 ^ 32 ->
  let v := registers b 58 in
  let new_value := if value then Z.lor v (Z.shiftl 1 26) else Z.land v 0xFBFFFFFF in
  fst (setter value b) = Return tt /\
  io_log (snd (setter value b)) = io_log b ++ [RegRead 58; RegWrite 58 new_value] /\
  registers (snd (setter value b)) 58 = new_value /\
  (forall a, a <> 58 -> registers (snd (setter value b)) a = registers b a) /\
  0 <= new_value < 2 ^ 32 /\
  Z.testbit new_value 26 = value /\
  (forall i, i <> 26 -> Z.testbit new_value i = Z.testbit v i).
Proof.
  intros Hfw Hv v new_value.
  rewrite (setter_supported value b Hfw). cbn [fst snd io_log registers].
  assert (Hnew : new_value =
                 if value then Z.lor v (Z.shiftl 1 26)
                 else Z.land v (Np.invert32 (Z.shiftl 1 26))) by reflexivity.
  assert (Hbits : 0 <= new_value < 2 ^ 32 /\ Z.testbit new_value 26 = value /\
                  forall i, i <> 26 -> Z.testbit new_value i = Z.testbit v i).
  { rewrite Hnew. destruct value; [apply lor_bit_26 | apply land_not_bit_26]; exact Hv. }
  destruct Hbits as (Hrange & H26 & Hother).
  fold v. rewrite <- Hnew.
  repeat split; try tauto.
  - now rewrite <- app_assoc.
  - cbn. now apply uint32_small.
  - intros a Ha. destruct (Z.eqb_spec a 58); [contradiction | reflexivity].
Qed.

End GateProofs.

(** C1 (the code departs from the claim): on supported firmware the getter
    answers whether the register value is at least [2^26], not whether its
    bit 26 is set. With register 58 holding [0x08000000] (bit 27 set, bit 26
    clear) it returns [True]. *)
Theorem get_trigger_holdoff_bit_27_only :
  fst (get_trigger_holdoff_release (board_with (Some "30.04"%string) 0x08000000))
    = Return true /\
  Z.testbit 0x08000000 26 = false.
Proof. split; vm_compute; reflexivity. Qed.

(** The second half of C1 holds: a register value of fewer than 27
    binary digits gives [False], never an [IndexError]. *)
Lemma get_trigger_holdoff_short_register (v : Z) :
  0 <= v < 2 ^ 26 ->
  fst (get_trigger_holdoff_release (board_with (Some "30.04"%string) v)) = Return false.
Proof.
  intros Hv. unfold get_trigger_holdoff_release.
  rewrite getter_supported.
  - cbn [fst registers board_with Z.eqb Pos.eqb]. rewrite uint32_small by lia.
    f_equal. apply Z.leb_gt. lia.
  - exists "30.04"%string, [30; 4]%N, [30; 4]%N. repeat split; reflexivity.
Qed.

(** C7, the claim as stated fails: the malformed firmware string "abc" makes
    the getter raise, where the claim has it return [False]. *)
Lemma get_trigger_holdoff_malformed_raises :
  release_parse "abc" = None /\
  fst (get_trigger_holdoff_release (board_with (Some "abc"%string) 0x04000000))
    = Raise (InvalidVersion "abc") /\
  fst (get_trigger_holdoff_release (board_with (Some "abc"%string) 0x04000000))
    <> Return false.
Proof.
  split; [reflexivity | split].
  - vm_compute. reflexivity.
  - vm_compute. discriminate.
Qed.

Lemma get_trigger_holdoff_unsupported_firmware_witness :
  get_trigger_holdoff_release (board_with (Some "29.10"%string) 0x04000000)
    = (Return false, board_with (Some "29.10"%string) 0x04000000) /\
  get_trigger_holdoff_release (board_with None 0x04000000)
    = (Return false, board_with None 0x04000000).
Proof.
  split.
  - apply (proj1 (get_trigger_holdoff_unsupported_firmware
                    (list N) release_parse release_lt _)).
    right. exists "29.10"%string, [29; 10]%N, [30; 4]%N. repeat split; reflexivity.
  - apply (proj1 (get_trigger_holdoff_unsupported_firmware
                    (list N) release_parse release_lt _)).
    left. reflexivity.
Defined.


Lemma set_trigger_holdoff_read_modify_write_witness :
  io_log (snd (set_trigger_holdoff_release true (board_with (Some "30.04"%string) 0x00000000)))
    = [RegRead 58; RegWrite 58 0x04000000] /\
  registers (snd (set_trigger_holdoff_release true
                    (board_with (Some "30.04"%string) 0x00000000))) 58 = 0x04000000 /\
  io_log (snd (set_trigger_holdoff_release false (board_with (Some "30.04"%string) 0x04000000)))
    = [RegRead 58; RegWrite 58 0x00000000] /\
  registers (snd (set_trigger_holdoff_release false
                    (board_with (Some "30.04"%string) 0x04000000))) 58 = 0x00000000.
Proof.
  assert (Hfw : forall v, firmware_parses (list N) release_parse release_lt
                            (board_with (Some "30.04"%string) v) false).
  { intros v. exists "30.04"%string, [30; 4]%N, [30; 4]%N. repeat split; reflexivity. }
  destruct (set_trigger_holdoff_read_modify_write (list N) release_parse release_lt
              true (board_with (Some "30.04"%string) 0) (Hfw 0))
    as (_ & Hlog1 & Hreg1 & _); [cbn; lia|].
  destruct (set_trigger_holdoff_read_modify_write (list N) release_parse release_lt
              false (board_with (Some "30.04"%string) 0x04000000) (Hfw 0x04000000))
    as (_ & Hlog2 & Hreg2 & _); [cbn; lia|].
  repeat split; assumption.
Defined.

End GateFacts.

(** ** Facts about the raw acquisition controller *)

Module AcqFacts.
Import RawAcq.

(** *** Arrays *)

Lemma getitem_in_range (a : list float) (i : nat) :
  (i < length a)%nat -> getitem a i = Return (nth i a 0%float).
Proof.
  intros Hi. unfold getitem. rewrite nth_lookup.
  destruct (lookup_lt_is_Some_2 a i Hi) as [x ->]. reflexivity.
Qed.

Lemma has_shape_row (a : list (list float)) (R S r : nat) (row : list float) :
  has_shape a R S -> a !! r = Some row -> length row = S.
Proof. intros [_ Hrows] Hr. exact (proj1 (Forall_lookup _ _) Hrows r row Hr). Qed.

Lemma setitem2_spec (a : list (list float)) (R S r s : nat) (v : float) :
  has_shape a R S -> (r < R)%nat -> (s < S)%nat ->
  exists a',
    setitem2 a r s v = Return a' /\ has_shape a' R S /\
    item2 a' r s = Some v /\
    forall r' s', ~ (r' = r /\ s' = s) -> item2 a' r' s' = item2 a r' s'.
Proof.
  intros Hshape Hr Hs. pose proof Hshape as [Hlen Hrows].
  destruct (lookup_lt_is_Some_2 a r) as [row Hrow]; [lia|].
  pose proof (has_shape_row _ _ _ _ _ Hshape Hrow) as Hlrow.
  unfold setitem2. rewrite Hrow. rewrite decide_True by lia.
  eexists; split; [reflexivity|]. split; [|split].
  - split; [now rewrite length_insert|].
    apply Forall_insert; [exact Hrows | now rewrite length_insert].
  - unfold item2. rewrite list_lookup_insert_eq by lia. cbn.
    apply list_lookup_insert_eq. lia.
  - intros r' s' Hne. unfold item2. destruct (decide (r' = r)) as [->|Hr'].
    + rewrite list_lookup_insert_eq by lia. rewrite Hrow. cbn.
      apply list_lookup_insert_ne. intros ->. tauto.
    + now rewrite list_lookup_insert_ne by auto.
Qed.

(** Two arrays of one shape with the same elements are the same array. *)
Lemma array2_ext (a b : list (list float)) (R S : nat) :
  has_shape a R S -> has_shape b R S ->
  (forall r s, (r < R)%nat -> (s < S)%nat -> item2 a r s = item2 b r s) ->
  a = b.
Proof.
  intros Ha Hb Hitems. apply list_eq. intros r.
  destruct (decide (r < R)%nat) as [Hr|Hr].
  - destruct (lookup_lt_is_Some_2 a r) as [ra Hra]; [destruct Ha; lia|].
    destruct (lookup_lt_is_Some_2 b r) as [rb Hrb]; [destruct Hb; lia|].
    rewrite Hra, Hrb. f_equal. apply list_eq. intros s.
    pose proof (has_shape_row _ _ _ _ _ Ha Hra) as Hla.
    pose proof (has_shape_row _ _ _ _ _ Hb Hrb) as Hlb.
    destruct (decide (s < S)%nat) as [Hs|Hs].
    + specialize (Hitems r s Hr Hs). unfold item2 in Hitems.
      rewrite Hra, Hrb in Hitems. exact Hitems.
    + rewrite (proj2 (lookup_ge_None ra s)), (proj2 (lookup_ge_None rb s)) by lia.
      reflexivity.
  - destruct Ha as [Ha _], Hb as [Hb _].
    rewrite (proj2 (lookup_ge_None a r)), (proj2 (lookup_ge_None b r)) by lia.
    reflexivity.
Qed.

Lemma demux_spec_shape (c : nat) (raw : list float) (R S : nat) :
  has_shape (demux_spec c raw R S) R S.
Proof.
  unfold demux_spec. split.
  - now rewrite length_fmap, length_seq.
  - apply Forall_fmap, Forall_forall. intros r _. cbn.
    now rewrite length_fmap, length_seq.
Qed.

Lemma demux_spec_item (c : nat) (raw : list float) (R S r s : nat) :
  (r < R)%nat -> (s < S)%nat ->
  item2 (demux_spec c raw R S) r s
    = Some (signal_to_volt (nth ((r * S + s) * 2 + c) raw 0%float)).
Proof.
  intros Hr Hs. unfold item2, demux_spec.
  rewrite list_lookup_fmap, (proj2 (lookup_seq 0 R r r)) by (split; lia). cbn.
  rewrite list_lookup_fmap, (proj2 (lookup_seq 0 S s s)) by (split; lia).
  reflexivity.
Qed.

(** *** The compiled kernel *)

Lemma process_sample_spec (buf : list float) (R S r s : nat)
    (st : list (list float) * list (list float)) :
  length buf = (S * R * 2)%nat -> (r < R)%nat -> (s < S)%nat ->
  has_shape (fst st) R S -> has_shape (snd st) R S ->
  exists st', process_sample buf S r s st = Return st' /\
              demuxed buf R S (fun r' s' => r' = r /\ s' = s) st st'.
Proof.
  intros Hlen Hr Hs HA HB. destruct st as [A B]. cbn [fst snd] in *.
  assert (Hi : ((r * S + s) * 2 + 1 < length buf)%nat) by nia.
  unfold process_sample.
  rewrite getitem_in_range by lia.
  destruct (setitem2_spec A R S r s
              ((nth ((r * S + s) * 2) buf 0 - 32760) / 81900.0)%float HA Hr Hs)
    as (A' & -> & HA' & HAget & HAother).
  rewrite getitem_in_range by lia.
  destruct (setitem2_spec B R S r s
              ((nth ((r * S + s) * 2 + 1) buf 0 - 32760) / 81900.0)%float HB Hr Hs)
    as (B' & -> & HB' & HBget & HBother).
  eexists; split; [reflexivity|]. unfold demuxed. cbn [fst snd].
  split; [exact HA'|]. split; [exact HB'|]. split.
  - intros r' s' [-> ->]. split; assumption.
  - intros r' s' Hne. split; [now apply HAother | now apply HBother].
Qed.

(** A loop whose iterations each fill the cells [Q i] fills, over the list
    [ls], the cells of all its iterations. *)
Lemma for_each_demuxed (buf : list float) (R S : nat) (Q : nat -> nat -> nat -> Prop)
    (Qdec : forall i r s, Decision (Q i r s))
    (body : nat -> list (list float) * list (list float)
            -> outcome (list (list float) * list (list float)))
    (ls : list nat) :
  (forall i st, i ∈ ls -> has_shape (fst st) R S -> has_shape (snd st) R S ->
     exists st', body i st = Return st' /\ demuxed buf R S (Q i) st st') ->
  forall st, has_shape (fst st) R S -> has_shape (snd st) R S ->
    exists st', for_each ls body st = Return st' /\
                demuxed buf R S (fun r s => Exists (fun i => Q i r s) ls) st st'.
Proof.
  induction ls as [|i ls IH]; intros Hbody st HA HB.
  - exists st. split; [reflexivity|]. unfold demuxed.
    split; [exact HA|]. split; [exact HB|]. split.
    + intros r s Hex. now apply Exists_nil in Hex.
    + intros r s _. split; reflexivity.
  - destruct (Hbody i st) as (st1 & Hst1 & HA1 & HB1 & Hin1 & Hout1);
      [apply list_elem_of_here | assumption | assumption |].
    destruct (IH (fun j st Hj => Hbody j st (list_elem_of_further _ _ _ Hj)) st1 HA1 HB1)
      as (st' & Hst' & HA' & HB' & Hin' & Hout').
    exists st'. split; [cbn; rewrite Hst1; exact Hst'|].
    unfold demuxed. split; [exact HA'|]. split; [exact HB'|]. split.
    + intros r s Hex.
      destruct (decide (Exists (fun j => Q j r s) ls)) as [Hls|Hls].
      * now apply Hin'.
      * destruct (Hout' r s Hls) as [-> ->].
        apply Exists_cons in Hex. destruct Hex as [Hi|Hex]; [|contradiction].
        now apply Hin1.
    + intros r s Hnot.
      destruct (Hout' r s) as [-> ->].
      { intros Hls. apply Hnot. now apply Exists_cons_tl. }
      apply Hout1. intros Hi. apply Hnot. now apply Exists_cons_hd.
Qed.

(** On arrays of the geometry's shape the two loops succeed, whatever the
    order in which the records are taken, as long as each record is taken,
    and leave in the arrays what the specification's algorithm describes. *)
Lemma process_records_spec (schedule : list nat) (buf : list float)
    (A B : list (list float)) (R S : nat) :
  (forall r, r ∈ schedule <-> (r < R)%nat) ->
  length buf = (S * R * 2)%nat -> has_shape A R S -> has_shape B R S ->
  process_records schedule buf A B S
    = Return (demux_spec 0 buf R S, demux_spec 1 buf R S).
Proof.
  intros Hsched Hlen HA HB. unfold process_records, range.
  destruct (for_each_demuxed buf R S
              (fun r r' s' => Exists (fun s => r' = r /\ s' = s) (seq 0 S)) _
              (fun r => for_each (seq 0 S) (fun s => process_sample buf S r s))
              schedule) with (st := (A, B))
    as ([A' B'] & -> & HA' & HB' & Hin & _); try assumption.
  { intros r st Hr HstA HstB. apply Hsched in Hr.
    apply (for_each_demuxed buf R S (fun s r' s' => r' = r /\ s' = s) _); try assumption.
    intros s st0 Hs Hst0A Hst0B. apply elem_of_seq in Hs.
    apply (process_sample_spec buf R S r s st0); try assumption; lia. }
  cbn [fst snd] in *.
  assert (Hall : forall r s, (r < R)%nat -> (s < S)%nat ->
            Exists (fun r0 => Exists (fun s0 => r = r0 /\ s = s0) (seq 0 S)) schedule).
  { intros r s Hr Hs. apply Exists_exists. exists r. split; [now apply Hsched|].
    apply Exists_exists. exists s. split; [apply elem_of_seq; lia | tauto]. }
  f_equal. f_equal.
  - apply (array2_ext _ _ R S); [assumption | apply demux_spec_shape |].
    intros r s Hr Hs. rewrite demux_spec_item, Nat.add_0_r by assumption.
    apply (Hin r s). now apply Hall.
  - apply (array2_ext _ _ R S); [assumption | apply demux_spec_shape |].
    intros r s Hr Hs. rewrite demux_spec_item by assumption.
    apply (Hin r s). now apply Hall.
Qed.

Lemma process_buffer_spec (buf : list float) (A B : list (list float)) (R S : nat) :
  length buf = (S * R * 2)%nat -> has_shape A R S -> has_shape B R S ->
  process_buffer buf A B R S = Return (demux_spec 0 buf R S, demux_spec 1 buf R S).
Proof.
  intros Hlen HA HB. apply process_records_spec; try assumption.
  intros r. unfold range. rewrite elem_of_seq. lia.
Qed.

(** Taking the records in another order ([prange] leaves the order open)
    gives the arrays of the sequential order. *)
Lemma process_buffer_any_schedule (schedule : list nat) (buf : list float)
    (A B : list (list float)) (R S : nat) :
  schedule ≡ₚ range R ->
  length buf = (S * R * 2)%nat -> has_shape A R S -> has_shape B R S ->
  process_records schedule buf A B S = process_buffer buf A B R S.
Proof.
  intros Hperm Hlen HA HB. rewrite process_buffer_spec by assumption.
  apply process_records_spec; try assumption.
  intros r. rewrite Hperm. unfold range. rewrite elem_of_seq. lia.
Qed.

(** *** The numpy conversion *)

Lemma rows_length {A : Type} (n k : nat) (l : list A) : length (rows n k l) = n.
Proof. revert l. induction n as [|n IH]; intros l; cbn; [reflexivity | now rewrite IH]. Qed.

Lemma rows_lookup {A : Type} (n k r : nat) (l : list A) :
  (r < n)%nat -> rows n k l !! r = Some (take k (drop (r * k) l)).
Proof.
  revert r l. induction n as [|n IH]; intros r l Hr; [lia|].
  destruct r as [|r]; cbn [rows]; [reflexivity|].
  change ((take k l :: rows n k (drop k l)) !! S r) with (rows n k (drop k l) !! r).
  rewrite IH by lia. rewrite drop_drop. do 2 f_equal; lia.
Qed.

Lemma nth_take_drop (l : list float) (k m i : nat) (d : float) :
  (i < k)%nat -> nth i (take k (drop m l)) d = nth (m + i) l d.
Proof.
  intros Hi. rewrite !nth_lookup, lookup_take, decide_True, lookup_drop by lia.
  reflexivity.
Qed.

Lemma reshape_records_pairs_ok (buf : list float) (R S : nat) :
  (0 < R)%nat -> length buf = (S * R * 2)%nat ->
  reshape_records_pairs buf R = Return (rows S 2 <$> rows R (S * 2) buf).
Proof.
  intros HR Hlen. unfold reshape_records_pairs.
  rewrite decide_False by lia.
  replace (length buf) with (S * (R * 2))%nat by lia.
  rewrite Nat.Div0.mod_mul, Nat.div_mul by lia.
  rewrite decide_True by reflexivity. reflexivity.
Qed.

Lemma reshape_records_pairs_no_records (buf : list float) :
  reshape_records_pairs buf 0 = Raise ValueError.
Proof. reflexivity. Qed.

Lemma slice_last_shape (c : nat) (buf : list float) (R S : nat) :
  has_shape (slice_last c (rows S 2 <$> rows R (S * 2) buf)) R S.
Proof.
  unfold slice_last. split.
  - now rewrite !length_fmap, rows_length.
  - apply Forall_fmap, Forall_fmap, Forall_forall. intros row _. cbn.
    now rewrite length_fmap, rows_length.
Qed.

Lemma slice_last_item (c : nat) (buf : list float) (R S r s : nat) :
  (c < 2)%nat -> (r < R)%nat -> (s < S)%nat ->
  item2 (slice_last c (rows S 2 <$> rows R (S * 2) buf)) r s
    = Some (nth ((r * S + s) * 2 + c) buf 0%float).
Proof.
  intros Hc Hr Hs. unfold item2, slice_last.
  change (map ?f ?l) with (f <$> l).
  rewrite !list_lookup_fmap, rows_lookup by lia. cbn.
  change (map ?f ?l) with (f <$> l).
  rewrite list_lookup_fmap, rows_lookup by lia. cbn.
  rewrite nth_take_drop, nth_take_drop by lia.
  do 2 f_equal. lia.
Qed.

Lemma has_shape_fmap (f : float -> float) (a : list (list float)) (R S : nat) :
  has_shape a R S -> has_shape (map (map f) a) R S.
Proof.
  intros [Hlen Hrows]. split.
  - now rewrite length_map.
  - change (map ?g ?l) with (g <$> l). apply Forall_fmap.
    eapply Forall_impl; [exact Hrows|]. intros row Hrow. cbn. now rewrite length_map.
Qed.

Lemma item2_fmap (f : float -> float) (a : list (list float)) (r s : nat) :
  item2 (map (map f) a) r s = f <$> item2 a r s.
Proof.
  unfold item2. change (map (map f) a) with (map f <$> a).
  rewrite list_lookup_fmap. destruct (a !! r) as [row|]; cbn; [|reflexivity].
  change (map f row) with (f <$> row). apply list_lookup_fmap.
Qed.

(** Subtracting the offset and dividing, array-wide, on the reshaped
    buffer's channel slice: the specification's channel. *)
Lemma numpy_channel (c : nat) (buf : list float) (R S : nat) :
  (c < 2)%nat ->
  map (map (fun v => (v / 81900.0)%float))
    (map (map (fun v => (v - 32760)%float))
       (slice_last c (rows S 2 <$> rows R (S * 2) buf)))
  = demux_spec c buf R S.
Proof.
  intros Hc. apply (array2_ext _ _ R S).
  - apply has_shape_fmap, has_shape_fmap, slice_last_shape.
  - apply demux_spec_shape.
  - intros r s Hr Hs.
    rewrite !item2_fmap, slice_last_item, demux_spec_item by assumption.
    reflexivity.
Qed.

(** *** The controller *)

Lemma has_shape_lengths (a : list (list float)) (R S : nat) :
  has_shape a R S -> map length a = replicate R S.
Proof.
  intros [<- Hrows]. induction Hrows as [|row a Hrow _ IH]; cbn; [reflexivity|].
  now rewrite Hrow, IH.
Qed.

Lemma result_arrays_copy (a b : nat) (w : world) (A B : list (list float)) :
  heap w !! a = Some A -> heap w !! b = Some B ->
  result_arrays true a b w =
    (Return (length (heap w), S (length (heap w))),
     mkWorld (self w) ((heap w ++ [A]) ++ [B])).
Proof.
  intros Ha Hb. unfold result_arrays, bind, load, alloc, ret. cbn.
  rewrite Ha. cbn. rewrite lookup_app_l by (apply lookup_lt_is_Some; eauto).
  rewrite Hb. cbn [heap self]. rewrite length_app. cbn. do 3 f_equal. lia.
Qed.

Lemma result_arrays_view (a b : nat) (w : world) :
  result_arrays false a b w = (Return (a, b), w).
Proof. reflexivity. Qed.

Lemma converted_lookup_A (w : world) (buf : list float) (a b : nat) :
  prepared w buf a b ->
  heap (converted w buf a b) !! a
    = Some (demux_spec 0 buf (records_per_buffer (self w)) (samples_per_record (self w))).
Proof.
  intros Hp. destruct (prep_shape_A _ _ _ _ Hp) as (A & HA & _).
  pose proof (prep_distinct _ _ _ _ Hp). cbn.
  rewrite list_lookup_insert_ne by auto.
  apply list_lookup_insert_eq, lookup_lt_is_Some. eauto.
Qed.

Lemma converted_lookup_B (w : world) (buf : list float) (a b : nat) :
  prepared w buf a b ->
  heap (converted w buf a b) !! b
    = Some (demux_spec 1 buf (records_per_buffer (self w)) (samples_per_record (self w))).
Proof.
  intros Hp. destruct (prep_shape_B _ _ _ _ Hp) as (B & HB & _). cbn.
  apply list_lookup_insert_eq. rewrite length_insert. apply lookup_lt_is_Some. eauto.
Qed.

Lemma converted_lookup_other (w : world) (buf : list float) (a b l : nat) :
  l <> a -> l <> b -> heap (converted w buf a b) !! l = heap w !! l.
Proof. intros Ha Hb. cbn. now rewrite !list_lookup_insert_ne by auto. Qed.

Lemma converted_length (w : world) (buf : list float) (a b : nat) :
  length (heap (converted w buf a b)) = length (heap w).
Proof. cbn. now rewrite !length_insert. Qed.

(** The compiled conversion, on a prepared session. *)
Lemma numba_get_spec (copy : bool) (w : world) (buf : list float) (a b : nat) :
  prepared w buf a b ->
  numba_get_alldata_from_buffer_in_volt copy w
    = result_arrays copy a b (converted w buf a b).
Proof.
  intros Hp.
  destruct (prep_shape_A _ _ _ _ Hp) as (A & HA & HshA).
  destruct (prep_shape_B _ _ _ _ Hp) as (B & HB & HshB).
  unfold numba_get_alldata_from_buffer_in_volt, bind, get_state, attr, load, lift, store.
  rewrite (prep_cha_A _ _ _ _ Hp), (prep_cha_B _ _ _ _ Hp), (prep_buffer _ _ _ _ Hp).
  rewrite HA, HB.
  rewrite (process_buffer_spec buf A B _ _ (prep_length _ _ _ _ Hp) HshA HshB).
  reflexivity.
Qed.

(** The numpy conversion, on a prepared session with at least one record
    per buffer. *)
Lemma numpy_get_spec (copy : bool) (w : world) (buf : list float) (a b : nat) :
  prepared w buf a b -> (0 < records_per_buffer (self w))%nat ->
  numpy_get_alldata_from_buffer_in_volt copy w
    = result_arrays copy a b (converted w buf a b).
Proof.
  intros Hp HR.
  destruct (prep_shape_A _ _ _ _ Hp) as (A & HA & HshA).
  destruct (prep_shape_B _ _ _ _ Hp) as (B & HB & HshB).
  pose proof (prep_distinct _ _ _ _ Hp) as Hab.
  assert (Ha : (a < length (heap w))%nat) by (apply lookup_lt_is_Some; eauto).
  assert (Hb : (b < length (heap w))%nat) by (apply lookup_lt_is_Some; eauto).
  unfold numpy_get_alldata_from_buffer_in_volt, bind at 1, get_state.
  rewrite (prep_buffer _ _ _ _ Hp).
  unfold bind at 1, lift.
  rewrite (reshape_records_pairs_ok buf _ _ HR (prep_length _ _ _ _ Hp)).
  unfold bind at 1, attr. rewrite (prep_cha_A _ _ _ _ Hp).
  unfold bind at 1, subtract_out, bind at 1, load. rewrite HA.
  rewrite decide_True
    by (rewrite (has_shape_lengths _ _ _ HshA);
        apply has_shape_lengths, slice_last_shape).
  unfold store at 1. unfold bind at 1, idiv, bind at 1, load. cbn [heap self].
  rewrite list_lookup_insert_eq by lia.
  unfold store at 1. cbn [heap self]. rewrite list_insert_insert_eq, numpy_channel by lia.
  unfold bind at 1, attr. cbn [heap self]. rewrite (prep_cha_B _ _ _ _ Hp).
  unfold bind at 1, subtract_out, bind at 1, load. cbn [heap self].
  rewrite list_lookup_insert_ne, HB by auto.
  rewrite decide_True
    by (rewrite (has_shape_lengths _ _ _ HshB);
        apply has_shape_lengths, slice_last_shape).
  unfold store at 1. unfold bind at 1, idiv, bind at 1, load. cbn [heap self].
  rewrite list_lookup_insert_eq by (rewrite length_insert; lia).
  unfold store at 1. cbn [heap self]. rewrite list_insert_insert_eq, numpy_channel by lia.
  reflexivity.
Qed.

(** Without records the numpy conversion cannot infer the row length. *)
Lemma numpy_get_no_records (copy : bool) (w : world) (buf : list float) :
  buffer (self w) = Some buf -> records_per_buffer (self w) = 0%nat ->
  numpy_get_alldata_from_buffer_in_volt copy w = (Raise ValueError, w).
Proof.
  intros Hbuf HR. unfold numpy_get_alldata_from_buffer_in_volt, bind at 1, get_state.
  rewrite Hbuf, HR. reflexivity.
Qed.

Lemma get_alldata_spec (st : strategy) (copy : bool) (w : world) (buf : list float)
    (a b : nat) :
  prepared w buf a b -> (0 < records_per_buffer (self w))%nat ->
  get_alldata st copy w = result_arrays copy a b (converted w buf a b).
Proof.
  intros Hp HR. destruct st; [now apply numpy_get_spec | now apply numba_get_spec].
Qed.

Lemma converted_prepared (w : world) (buf : list float) (a b : nat) :
  prepared w buf a b -> prepared (converted w buf a b) buf a b.
Proof.
  intros Hp. pose proof Hp as [Hch Hbuf Hlen HA HB Hab _ _].
  split; try assumption.
  - eexists. split; [now apply converted_lookup_A | apply demux_spec_shape].
  - eexists. split; [now apply converted_lookup_B | apply demux_spec_shape].
Qed.

Lemma prepared_heap_app (w : world) (buf : list float) (a b : nat)
    (more : list (list (list float))) :
  prepared w buf a b -> prepared (mkWorld (self w) (heap w ++ more)) buf a b.
Proof.
  intros [Hch Hbuf Hlen HA HB Hab (A & HhA & HsA) (B & HhB & HsB)].
  split; try assumption; cbn [self heap].
  - exists A. split; [|assumption].
    rewrite lookup_app_l by (apply lookup_lt_is_Some; eauto). assumption.
  - exists B. split; [|assumption].
    rewrite lookup_app_l by (apply lookup_lt_is_Some; eauto). assumption.
Qed.

Lemma prepared_bounds (w : world) (buf : list float) (a b : nat) :
  prepared w buf a b -> (a < length (heap w))%nat /\ (b < length (heap w))%nat.
Proof.
  intros Hp. destruct (prep_shape_A _ _ _ _ Hp) as (A & HA & _).
  destruct (prep_shape_B _ _ _ _ Hp) as (B & HB & _).
  split; apply lookup_lt_is_Some; eauto.
Qed.

Lemma pre_start_capture_run (samples records buffers : nat) (w : world) :
  pre_start_capture samples records buffers w =
    (Return tt,
     mkWorld
       (mkController samples records buffers (number_of_channels (self w))
          (Some (zeros (samples * records * number_of_channels (self w))))
          (Some (length (heap w))) (Some (length (heap w ++ [zeros2 records samples]))))
       ((heap w ++ [zeros2 records samples]) ++ [zeros2 records samples])).
Proof. reflexivity. Qed.

Lemma zeros2_shape (records samples : nat) :
  has_shape (zeros2 records samples) records samples.
Proof.
  unfold zeros2, zeros. split; [apply length_replicate|].
  apply Forall_replicate, length_replicate.
Qed.

(** [pre_start_capture] prepares a session, whatever came before. *)
Lemma pre_start_capture_prepared (samples records buffers : nat) (w : world) :
  number_of_channels (self w) = 2%nat ->
  exists w',
    pre_start_capture samples records buffers w = (Return tt, w') /\
    samples_per_record (self w') = samples /\
    records_per_buffer (self w') = records /\
    prepared w' (zeros (samples * records * 2)) (length (heap w)) (S (length (heap w))).
Proof.
  intros Hch. rewrite pre_start_capture_run. eexists. split; [reflexivity|].
  split; [reflexivity|]. split; [reflexivity|].
  split; cbn [self heap samples_per_record records_per_buffer number_of_channels
              buffer cha_A_buffer cha_B_buffer].
  - assumption.
  - now rewrite Hch.
  - unfold zeros. now rewrite length_replicate.
  - reflexivity.
  - rewrite length_app. cbn. f_equal. f_equal. lia.
  - lia.
  - exists (zeros2 records samples). split; [|apply zeros2_shape].
    rewrite lookup_app_l by (rewrite length_app; cbn; lia).
    now apply list_lookup_middle.
  - exists (zeros2 records samples). split; [|apply zeros2_shape].
    apply list_lookup_middle. rewrite length_app. cbn. lia.
Qed.

(** A delivery of matching length: the raw buffer becomes the elementwise
    sum, nothing else changes. *)
Lemma handle_buffer_spec (d : list float) (bn : option Z) (w : world) (buf : list float) :
  buffer (self w) = Some buf -> length d = length buf ->
  handle_buffer d bn w
    = (Return tt, mkWorld (set_buffer (self w) (zip_with PrimFloat.add buf d)) (heap w)).
Proof.
  intros Hbuf Hlen. unfold handle_buffer, bind at 1, get_state. rewrite Hbuf.
  unfold bind, lift, iadd. rewrite decide_True by assumption. reflexivity.
Qed.

Lemma handle_buffer_prepared (d : list float) (w : world) (buf : list float) (a b : nat) :
  prepared w buf a b -> length d = length buf ->
  prepared (mkWorld (set_buffer (self w) (zip_with PrimFloat.add buf d)) (heap w))
           (zip_with PrimFloat.add buf d) a b.
Proof.
  intros [Hch Hbuf Hlen HA HB Hab HsA HsB] Hd.
  split; cbn [self heap set_buffer samples_per_record records_per_buffer
              number_of_channels buffer cha_A_buffer cha_B_buffer]; try assumption.
  - reflexivity.
  - rewrite length_zip_with. lia.
Qed.




(** A conversion on a prepared session returns; the session stays prepared
    with the same raw buffer, and the heap changes only at the two channel
    arrays and by growing. *)
Lemma get_alldata_step (st : strategy) (copy : bool) (w : world) (buf : list float)
    (a b : nat) :
  prepared w buf a b -> (0 < records_per_buffer (self w))%nat ->
  exists r w',
    get_alldata st copy w = (Return r, w') /\
    self w' = self w /\ prepared w' buf a b /\
    (length (heap w) <= length (heap w'))%nat /\
    (forall l, (l < length (heap w))%nat -> l <> a -> l <> b ->
               heap w' !! l = heap w !! l).
Proof.
  intros Hp HR. rewrite (get_alldata_spec st copy w buf a b Hp HR).
  pose proof (converted_prepared _ _ _ _ Hp) as Hpc.
  destruct copy.
  - rewrite (result_arrays_copy a b _ _ _ (converted_lookup_A _ _ _ _ Hp)
               (converted_lookup_B _ _ _ _ Hp)).
    do 2 eexists. split; [reflexivity|]. split; [reflexivity|]. split; [|split].
    + rewrite <- app_assoc.
      apply (prepared_heap_app (converted w buf a b)). exact Hpc.
    + cbn [heap]. rewrite !length_app, converted_length. lia.
    + intros l Hl Hla Hlb. cbn [heap].
      rewrite <- app_assoc, lookup_app_l by (rewrite converted_length; lia).
      now apply converted_lookup_other.
  - rewrite result_arrays_view.
    do 2 eexists. split; [reflexivity|]. split; [reflexivity|]. split; [|split].
    + exact Hpc.
    + rewrite converted_length. lia.
    + intros l _ Hla Hlb. now apply converted_lookup_other.
Qed.

(** Any sequence of fitting deliveries and conversions runs through, keeps
    the session prepared, and leaves alone every array but the session's
    two. *)
Lemma run_ops_frame (ops : list op) :
  forall (w : world) (buf : list float) (a b : nat),
    prepared w buf a b -> (0 < records_per_buffer (self w))%nat ->
    Forall (op_fits (length buf)) ops ->
    exists buf' w',
      run_ops ops w = (Return tt, w') /\
      prepared w' buf' a b /\ length buf' = length buf /\
      records_per_buffer (self w') = records_per_buffer (self w) /\
      (length (heap w) <= length (heap w'))%nat /\
      (forall l, (l < length (heap w))%nat -> l <> a -> l <> b ->
                 heap w' !! l = heap w !! l).
Proof.
  induction ops as [|o ops IH]; intros w buf a b Hp HR Hfit.
  - exists buf, w. split; [reflexivity|]. split; [assumption|]. auto.
  - apply Forall_cons in Hfit. destruct Hfit as [Ho Hfit].
    assert (Hstep : exists buf1 w1,
              run_op o w = (Return tt, w1) /\ prepared w1 buf1 a b /\
              length buf1 = length buf /\
              records_per_buffer (self w1) = records_per_buffer (self w) /\
              (length (heap w) <= length (heap w1))%nat /\
              (forall l, (l < length (heap w))%nat -> l <> a -> l <> b ->
                         heap w1 !! l = heap w !! l)).
    { destruct o as [d bn | st copy]; cbn in Ho |- *.
      - exists (zip_with PrimFloat.add buf d). eexists.
        split; [apply (handle_buffer_spec d bn w buf (prep_buffer _ _ _ _ Hp) Ho)|].
        split; [now apply handle_buffer_prepared|].
        split; [rewrite length_zip_with; lia|]. cbn. auto.
      - destruct (get_alldata_step st copy w buf a b Hp HR)
          as (r & w1 & Hrun & Hself & Hp1 & Hlen1 & Hframe1).
        exists buf, w1. unfold bind. rewrite Hrun. cbn.
        rewrite Hself. split; [reflexivity|]. auto. }
    destruct Hstep as (buf1 & w1 & Hrun1 & Hp1 & Hlen1 & HR1 & Hgrow1 & Hframe1).
    destruct (IH w1 buf1 a b Hp1) as (buf' & w' & Hrun & Hp' & Hlen' & HR' & Hgrow & Hframe).
    { lia. }
    { now rewrite Hlen1. }
    exists buf', w'. cbn [run_ops]. unfold bind. rewrite Hrun1.
    split; [exact Hrun|]. split; [exact Hp'|]. split; [lia|]. split; [lia|].
    split; [lia|]. intros l Hl Hla Hlb.
    rewrite Hframe by (auto; lia). now apply Hframe1.
Qed.

(** What a conversion returns and where: with [copy] two fresh arrays at
    the end of the heap, without it the session's own two. *)
Lemma get_alldata_result (st : strategy) (copy : bool) (w : world) (buf : list float)
    (a b : nat) :
  prepared w buf a b -> (0 < records_per_buffer (self w))%nat ->
  exists ra rb w',
    get_alldata st copy w = (Return (ra, rb), w') /\
    heap w' !! ra
      = Some (demux_spec 0 buf (records_per_buffer (self w)) (samples_per_record (self w))) /\
    heap w' !! rb
      = Some (demux_spec 1 buf (records_per_buffer (self w)) (samples_per_record (self w))) /\
    (if copy then ra = length (heap w) /\ rb = S (length (heap w))
     else ra = a /\ rb = b) /\
    heap w' !! a
      = Some (demux_spec 0 buf (records_per_buffer (self w)) (samples_per_record (self w))) /\
    heap w' !! b
      = Some (demux_spec 1 buf (records_per_buffer (self w)) (samples_per_record (self w))).
Proof.
  intros Hp HR. rewrite (get_alldata_spec st copy w buf a b Hp HR).
  pose proof (converted_lookup_A _ _ _ _ Hp) as HA.
  pose proof (converted_lookup_B _ _ _ _ Hp) as HB.
  pose proof (converted_length w buf a b) as Hlen.
  destruct (prepared_bounds _ _ _ _ Hp) as [Ha Hb].
  destruct copy.
  - rewrite (result_arrays_copy a b _ _ _ HA HB).
    do 3 eexists. split; [reflexivity|]. cbn [heap]. split; [|split; [|split; [|split]]].
    + rewrite <- app_assoc. now apply list_lookup_middle.
    + apply list_lookup_middle. rewrite length_app. cbn. lia.
    + rewrite Hlen. split; reflexivity.
    + rewrite <- app_assoc, lookup_app_l by lia. exact HA.
    + rewrite <- app_assoc, lookup_app_l by lia. exact HB.
  - rewrite result_arrays_view. do 3 eexists. split; [reflexivity|]. auto 6.
Qed.

(** *** Floating-point facts *)

Lemma zero_plus (d : float) :
  Prim2SF (0 + d)%float
    = match Prim2SF d with
      | S754_zero _ => S754_zero false
      | y => y
      end.
Proof.
  rewrite FloatAxioms.add_spec. change (Prim2SF 0%float) with (S754_zero false).
  destruct (Prim2SF d) as [[|]| [|] | | sy my ey]; reflexivity.
Qed.

(** Adding a delivery to a zeroed cell and adding it again gives the
    single-delivery content added to itself, whatever the float. *)
Lemma accumulate_twice_add (d : float) :
  ((0 + d) + d = (0 + d) + (0 + d))%float.
Proof.
  pose proof (zero_plus d) as Hz.
  destruct (Prim2SF d) as [sd | sd | | sd md ed] eqn:Hd.
  - assert (H0 : (0 + d = 0)%float) by (apply FloatAxioms.Prim2SF_inj; rewrite Hz; reflexivity).
    rewrite H0. exact H0.
  - assert (H0 : (0 + d = d)%float) by (apply FloatAxioms.Prim2SF_inj; congruence).
    now rewrite H0.
  - assert (H0 : (0 + d = d)%float) by (apply FloatAxioms.Prim2SF_inj; congruence).
    now rewrite H0.
  - assert (H0 : (0 + d = d)%float) by (apply FloatAxioms.Prim2SF_inj; congruence).
    now rewrite H0.
Qed.

Lemma all_codes_from_spec (P : Z -> bool) (n : nat) :
  forall c, all_codes_from P c n = true ->
            forall x, c <= x < c + Z.of_nat n -> P x = true.
Proof.
  induction n as [|n IH]; intros c Hall x Hx; [lia|].
  cbn [all_codes_from] in Hall. apply andb_true_iff in Hall. destruct Hall as [Hc Hrest].
  destruct (Z.eq_dec x c) as [->|Hne]; [exact Hc|].
  apply (IH (c + 1) Hrest). lia.
Qed.

Lemma all_codes_within_rounding :
  all_codes_from volt_within_rounding 0 (Z.to_nat 65536) = true.
Proof. vm_cast_no_check (eq_refl true). Qed.

Lemma all_codes_double : all_codes_from code_doubles 0 (Z.to_nat 65536) = true.
Proof. vm_cast_no_check (eq_refl true). Qed.

Lemma code_doubles_spec (c : Z) :
  is_code c ->
  ((0 + float_of_code c) + float_of_code c = 2 * (0 + float_of_code c))%float.
Proof.
  intros Hc. apply Leibniz.eqb_spec.
  apply (all_codes_from_spec code_doubles _ 0 all_codes_double c).
  unfold is_code in Hc. rewrite Z2Nat.id; lia.
Qed.

(** *** The claims *)


(** C3 (as amended): both conversions put [voltage(raw[(r*S + s)*2])] at
    channel A [r][s] and [voltage(raw[(r*S + s)*2 + 1])] at channel B
    [r][s]; and for 256 samples per record, 2 records per buffer and a raw
    buffer starting 32760, 32760, 32840, 32680, channel A record 0 sample 0
    and channel B record 0 sample 0 are both [0.0], channel A record 0
    sample 1 is about 0.000977 and channel B record 0 sample 1 about
    -0.000977. *)
Theorem conversion_places_samples (st : strategy) (copy : bool) (w : world)
    (buf : list float) (a b : nat) :
  prepared w buf a b ->
  (forall r s,
     (r < records_per_buffer (self w))%nat -> (s < samples_per_record (self w))%nat ->
     exists ra rb w',
       get_alldata st copy w = (Return (ra, rb), w') /\
       array_at w' ra r s
         = Some (signal_to_volt
                   (nth ((r * samples_per_record (self w) + s) * 2) buf 0%float)) /\
       array_at w' rb r s
         = Some (signal_to_volt
                   (nth ((r * samples_per_record (self w) + s) * 2 + 1) buf 0%float))) /\
  (samples_per_record (self w) = 256%nat -> records_per_buffer (self w) = 2%nat ->
   forall tail, buf = (float_of_code <$> [32760; 32760; 32840; 32680]) ++ tail ->
     exists ra rb w' x y,
       get_alldata st copy w = (Return (ra, rb), w') /\
       array_at w' ra 0 0 = Some 0%float /\
       array_at w' rb 0 0 = Some 0%float /\
       array_at w' ra 0 1 = Some x /\ approx x volt_0_000977 = true /\
       array_at w' rb 0 1 = Some y /\ approx y (- volt_0_000977)%float = true).
Proof.
  intros Hp.
  assert (Hgen : forall r s,
     (r < records_per_buffer (self w))%nat -> (s < samples_per_record (self w))%nat ->
     exists ra rb w',
       get_alldata st copy w = (Return (ra, rb), w') /\
       array_at w' ra r s
         = Some (signal_to_volt
                   (nth ((r * samples_per_record (self w) + s) * 2) buf 0%float)) /\
       array_at w' rb r s
         = Some (signal_to_volt
                   (nth ((r * samples_per_record (self w) + s) * 2 + 1) buf 0%float))).
  { intros r s Hr Hs.
    destruct (get_alldata_result st copy w buf a b Hp)
      as (ra & rb & w' & Hrun & HA & HB & _); [lia|].
    exists ra, rb, w'. split; [exact Hrun|]. unfold array_at. rewrite HA, HB. cbn.
    rewrite !demux_spec_item by assumption. now rewrite Nat.add_0_r. }
  split; [exact Hgen|].
  intros HS HR tail ->.
  destruct (Hgen 0%nat 0%nat) as (ra & rb & w' & Hrun & HA0 & HB0); [lia | lia |].
  destruct (Hgen 0%nat 1%nat) as (ra' & rb' & w'' & Hrun' & HA1 & HB1); [lia | lia |].
  rewrite Hrun in Hrun'. injection Hrun' as <- <- <-.
  rewrite HS in HA0, HB0, HA1, HB1.
  exists ra, rb, w'. do 2 eexists.
  split; [exact Hrun|]. split; [exact HA0|]. split; [exact HB0|].
  split; [exact HA1|]. split; [reflexivity|]. split; [exact HB1 | reflexivity].
Qed.

(** C5: on a session whose raw buffer is allocated, a delivery of matching
    length returns and leaves [old[k] + delivered[k]] in every cell of the
    raw buffer (it adds, it does not overwrite), the heap untouched; from a
    zeroed raw buffer a second delivery of the same data leaves every cell
    holding the single-delivery content added to itself, which for
    deliveries of 16-bit codes is twice that content. *)
Theorem handle_buffer_accumulates (w : world) (buf d : list float) (bn bn2 : option Z) :
  buffer (self w) = Some buf -> length d = length buf ->
  exists w' once,
    handle_buffer d bn w = (Return tt, w') /\
    buffer (self w') = Some once /\ heap w' = heap w /\
    length once = length buf /\
    (forall k x y, buf !! k = Some x -> d !! k = Some y ->
                   once !! k = Some (x + y)%float) /\
    (buf = zeros (length d) ->
     exists w'' twice,
       handle_buffer d bn2 w' = (Return tt, w'') /\
       buffer (self w'') = Some twice /\
       twice = (fun x => (x + x)%float) <$> once /\
       (Forall (fun y => exists c, is_code c /\ y = float_of_code c) d ->
        twice = (fun x => (2 * x)%float) <$> once)).
Proof.
  intros Hbuf Hlen.
  exists (mkWorld (set_buffer (self w) (zip_with PrimFloat.add buf d)) (heap w)).
  exists (zip_with PrimFloat.add buf d).
  split; [now apply handle_buffer_spec|]. split; [reflexivity|]. split; [reflexivity|].
  split; [rewrite length_zip_with; lia|]. split.
  - intros k x y Hx Hy. rewrite lookup_zip_with, Hx, Hy. reflexivity.
  - intros ->.
    exists (mkWorld (set_buffer (self w)
                       (zip_with PrimFloat.add
                          (zip_with PrimFloat.add (zeros (length d)) d) d)) (heap w)).
    eexists. split.
    { rewrite (handle_buffer_spec d bn2 _ (zip_with PrimFloat.add (zeros (length d)) d));
        [reflexivity | reflexivity |].
      rewrite length_zip_with. unfold zeros. rewrite length_replicate. lia. }
    split; [reflexivity|].
    unfold zeros. rewrite zip_with_replicate_l by lia.
    rewrite zip_with_fmap_l, zip_with_diag, <- !list_fmap_compose.
    split.
    + apply list_fmap_ext. intros _ x _. cbn. apply accumulate_twice_add.
    + intros Hcodes. apply Forall_fmap_ext.
      eapply Forall_impl; [exact Hcodes|]. cbn. intros y (c & Hc & ->).
      now apply code_doubles_spec.
Qed.

(** C6: a result taken with [copy=True] names two fresh arrays holding the
    converted channels, and no later delivery or conversion, in any number
    and order, changes them; a result taken with [copy=False] is the
    session's own pair of channel references, and after a later delivery and
    conversion the arrays behind it hold the conversion of the raw buffer as
    it is then. *)
Theorem copy_is_snapshot_view_is_alias (st st' : strategy) (copy' : bool) (w : world)
    (buf d : list float) (a b : nat) (bn : option Z) (later : list op) :
  prepared w buf a b -> (0 < records_per_buffer (self w))%nat ->
  Forall (op_fits (length buf)) later -> length d = length buf ->
  (exists a1 b1 w1 w2,
     get_alldata st true w = (Return (a1, b1), w1) /\
     heap w1 !! a1
       = Some (demux_spec 0 buf (records_per_buffer (self w)) (samples_per_record (self w))) /\
     heap w1 !! b1
       = Some (demux_spec 1 buf (records_per_buffer (self w)) (samples_per_record (self w))) /\
     run_ops later w1 = (Return tt, w2) /\
     heap w2 !! a1 = heap w1 !! a1 /\ heap w2 !! b1 = heap w1 !! b1) /\
  (exists w1 w2 r w3,
     get_alldata st false w = (Return (a, b), w1) /\
     cha_A_buffer (self w1) = Some a /\ cha_B_buffer (self w1) = Some b /\
     handle_buffer d bn w1 = (Return tt, w2) /\
     get_alldata st' copy' w2 = (Return r, w3) /\
     heap w3 !! a
       = Some (demux_spec 0 (zip_with PrimFloat.add buf d)
                 (records_per_buffer (self w)) (samples_per_record (self w))) /\
     heap w3 !! b
       = Some (demux_spec 1 (zip_with PrimFloat.add buf d)
                 (records_per_buffer (self w)) (samples_per_record (self w)))).
Proof.
  intros Hp HR Hfit Hd. destruct (prepared_bounds _ _ _ _ Hp) as [Ha Hb]. split.
  - destruct (get_alldata_result st true w buf a b Hp HR)
      as (a1 & b1 & w1 & Hrun & HA & HB & [-> ->] & _).
    destruct (get_alldata_step st true w buf a b Hp HR)
      as (r & w1' & Hrun' & Hself & Hp1 & _).
    rewrite Hrun in Hrun'. injection Hrun' as <- <-.
    destruct (run_ops_frame later w1 buf a b Hp1)
      as (buf' & w2 & Hops & _ & _ & _ & _ & Hframe);
      [rewrite Hself; exact HR | exact Hfit |].
    exists (length (heap w)), (S (length (heap w))), w1, w2.
    split; [exact Hrun|]. split; [exact HA|]. split; [exact HB|]. split; [exact Hops|].
    split; apply Hframe; try lia; apply lookup_lt_is_Some; eauto.
  - destruct (get_alldata_result st false w buf a b Hp HR)
      as (ra & rb & w1 & Hrun & _ & _ & [-> ->] & _).
    destruct (get_alldata_step st false w buf a b Hp HR)
      as (r & w1' & Hrun' & Hself & Hp1 & _).
    rewrite Hrun in Hrun'. injection Hrun' as <- <-.
    pose proof (handle_buffer_spec d bn w1 buf (prep_buffer _ _ _ _ Hp1) Hd) as Hdeliver.
    pose proof (handle_buffer_prepared d w1 buf a b Hp1 Hd) as Hp2.
    destruct (get_alldata_result st' copy' _ _ a b Hp2)
      as (ra & rb & w3 & Hrun3 & _ & _ & _ & HA3 & HB3).
    { cbn. rewrite Hself. exact HR. }
    cbn [self set_buffer records_per_buffer samples_per_record] in HA3, HB3.
    rewrite Hself in HA3, HB3.
    exists w1. eexists. exists (ra, rb), w3.
    split; [exact Hrun|]. split; [exact (prep_cha_A _ _ _ _ Hp1)|].
    split; [exact (prep_cha_B _ _ _ _ Hp1)|]. split; [exact Hdeliver|].
    split; [exact Hrun3|]. split; assumption.
Qed.

(** C4: [signal_to_volt] is the two-operation formula
    [(signal - 32760) / 81900.0] on every float, with no failure case; on
    each raw code of the 16-bit domain the code is an exact float, the
    result is finite and it is the exact quotient [(c - 32760) / 81900] up to
    a relative error of [2^-53]; and the quotient is what the docstring's
    unexpanded formula gives. *)
Theorem signal_to_volt_formula :
  (forall x : float, signal_to_volt x = ((x - 32760) / 81900.0)%float) /\
  (forall c : Z, is_code c ->
     exists qc q,
       float_to_Q (float_of_code c) = Some qc /\ (qc == inject_Z c)%Q /\
       float_to_Q (signal_to_volt (float_of_code c)) = Some q /\
       (Qabs (q - reference_volt c) * inject_Z (2 ^ 53) <= Qabs (reference_volt c))%Q) /\
  (forall c : Z,
     (inject_Z (c - 32760) / 16 * 0.8 / (2 ^ 12 - 1) == reference_volt c)%Q).
Proof.
  split; [reflexivity|]. split.
  - intros c Hc.
    assert (Hok : volt_within_rounding c = true).
    { apply (all_codes_from_spec volt_within_rounding _ 0 all_codes_within_rounding c).
      unfold is_code in Hc. rewrite Z2Nat.id; lia. }
    unfold volt_within_rounding in Hok.
    destruct (float_to_Q (float_of_code c)) as [qc|]; [|discriminate].
    destruct (float_to_Q (signal_to_volt (float_of_code c))) as [q|]; [|discriminate].
    apply andb_true_iff in Hok. destruct Hok as [Heq Hle].
    exists qc, q. split; [reflexivity|]. split; [now apply Qeq_bool_iff|].
    split; [reflexivity | now apply Qle_bool_iff].
  - intros c. unfold reference_volt. field.
Qed.


(** *** The example sessions *)

Lemma small_session_prepared : prepared small_session small_raw 0 1.
Proof.
  split; try reflexivity; try (cbn; lia).
  - eexists. split; [reflexivity|]. apply zeros2_shape.
  - eexists. split; [reflexivity|]. apply zeros2_shape.
Qed.

Lemma example_session_prepared : prepared example_session example_raw 0 1.
Proof.
  split; try (vm_compute; reflexivity); try (cbn; lia).
  - eexists. split; [reflexivity|]. apply zeros2_shape.
  - eexists. split; [reflexivity|]. apply zeros2_shape.
Qed.

Lemma empty_session_prepared : prepared empty_session [] 0 1.
Proof.
  split; try reflexivity; try (cbn; lia).
  - eexists. split; [reflexivity|]. apply zeros2_shape.
  - eexists. split; [reflexivity|]. apply zeros2_shape.
Qed.



(** C3, the claim as stated fails: in the end-to-end scenario channel B
    record 0 sample 0 is [voltage(raw[1]) = voltage(32760) = 0.0], which is
    not about -0.000977. *)
Lemma channel_B_first_sample_is_zero :
  samples_per_record (self example_session) = 256%nat /\
  records_per_buffer (self example_session) = 2%nat /\
  take 4 example_raw = float_of_code <$> [32760; 32760; 32840; 32680] /\
  buffer (self example_session) = Some example_raw /\
  fst (numba_get_alldata_from_buffer_in_volt true example_session)
    = Return (2%nat, 3%nat) /\
  array_at (snd (numba_get_alldata_from_buffer_in_volt true example_session)) 3 0 0
    = Some 0%float /\
  array_at (snd (numpy_get_alldata_from_buffer_in_volt true example_session)) 3 0 0
    = Some 0%float /\
  approx 0 (- volt_0_000977) = false.
Proof. repeat split; vm_compute; reflexivity. Qed.

Lemma conversion_places_samples_witness :
  exists ra rb w' x y,
    get_alldata Numba false example_session = (Return (ra, rb), w') /\
    array_at w' ra 0 0 = Some 0%float /\
    array_at w' rb 0 0 = Some 0%float /\
    array_at w' ra 0 1 = Some x /\ approx x volt_0_000977 = true /\
    array_at w' rb 0 1 = Some y /\ approx y (- volt_0_000977)%float = true.
Proof.
  apply (proj2 (conversion_places_samples Numba false example_session example_raw 0 1
                  example_session_prepared) eq_refl eq_refl
               (float_of_code <$> drop 4 (example_record ++ example_record))).
  vm_compute. reflexivity.
Defined.

Lemma signal_to_volt_formula_witness :
  exists qc q,
    float_to_Q (float_of_code 32840) = Some qc /\ (qc == inject_Z 32840)%Q /\
    float_to_Q (signal_to_volt (float_of_code 32840)) = Some q /\
    (Qabs (q - reference_volt 32840) * inject_Z (2 ^ 53) <= Qabs (reference_volt 32840))%Q.
Proof.
  apply (proj1 (proj2 signal_to_volt_formula) 32840). unfold is_code. lia.
Defined.

Lemma handle_buffer_accumulates_witness :
  exists w' once,
    handle_buffer small_raw (Some 0) small_empty_session = (Return tt, w') /\
    buffer (self w') = Some once /\ heap w' = heap small_empty_session /\
    length once = 8%nat.
Proof.
  destruct (handle_buffer_accumulates small_empty_session (zeros 8) small_raw
              (Some 0) (Some 1) eq_refl eq_refl)
    as (w' & once & Hrun & Hbuf & Hheap & Hlen & _).
  exists w', once. auto.
Defined.


Lemma copy_is_snapshot_view_is_alias_witness :
  exists a1 b1 w1 w2,
    get_alldata Numba true small_session = (Return (a1, b1), w1) /\
    run_ops [Deliver small_raw (Some 1); Convert Numpy false; Convert Numba true] w1
      = (Return tt, w2) /\
    heap w2 !! a1 = heap w1 !! a1 /\ heap w2 !! b1 = heap w1 !! b1.
Proof.
  destruct (copy_is_snapshot_view_is_alias Numba Numpy false small_session
              small_raw small_raw 0 1 (Some 1)
              [Deliver small_raw (Some 1); Convert Numpy false; Convert Numba true]
              small_session_prepared)
    as [(a1 & b1 & w1 & w2 & Hrun & _ & _ & Hops & HA & HB) _].
  - change (0 < 2)%nat. lia.
  - repeat constructor.
  - reflexivity.
  - exists a1, b1, w1, w2. auto.
Defined.

(** The alias at work: a view taken before a second delivery shows, after
    the next conversion, other values than it showed when it was returned. *)
Lemma view_is_overwritten :
  let first := numba_get_alldata_from_buffer_in_volt false small_session in
  let second :=
    (handle_buffer small_raw (Some 1) ;;;
     numba_get_alldata_from_buffer_in_volt false)%py (snd first) in
  fst first = Return (0%nat, 1%nat) /\ fst second = Return (0%nat, 1%nat) /\
  array_at (snd first) 0 0 1 = Some (signal_to_volt 32840) /\
  array_at (snd second) 0 0 1 = Some (signal_to_volt 65680).
Proof. repeat split; vm_compute; reflexivity. Qed.

End AcqFacts.

(** ** The register feature gate: frame, round trip, composition *)

Module GateComposition.
Import ATS9371 Holdoff GateFacts.

(** A number is below [2^n] exactly when it has no bit at [n] or above. *)
Lemma below_pow2_bits (x n : Z) :
  0 <= n -> (0 <= x < 2 ^ n <-> forall i, n <= i -> Z.testbit x i = false).
Proof.
  intros Hn. split.
  - intros Hx i Hi. rewrite <- (Z.mod_small x (2 ^ n)) by lia.
    apply Z.mod_pow2_bits_high. lia.
  - intros Hhigh. replace x with (x mod 2 ^ n); [apply Z.mod_pos_bound; lia|].
    apply Z.bits_inj'. intros i Hi. rewrite Z.testbit_mod_pow2 by lia.
    destruct (Z.ltb_spec i n) as [?|Hge]; [reflexivity|].
    now rewrite Hhigh.
Qed.

(** The written word: 32 bits, bit 26 as requested, the other bits kept. *)
Lemma holdoff_word_bits (value : bool) (v : Z) :
  0 <= v < 2 ^ 32 ->
  0 <= holdoff_word value v < 2 ^ 32 /\
  Z.testbit (holdoff_word value v) 26 = value /\
  forall i, i <> 26 -> Z.testbit (holdoff_word value v) i = Z.testbit v i.
Proof.
  intros Hv. destruct value; [apply (lor_bit_26 v Hv) | apply (land_not_bit_26 v Hv)].
Qed.

Lemma holdoff_word_ge (value : bool) (v : Z) :
  0 <= v < 2 ^ 32 ->
  (2 ^ 26 <=? holdoff_word value v) = value || (2 ^ 27 <=? v).
Proof.
  intros Hv. destruct (holdoff_word_bits value v Hv) as (Hrange & H26 & Hother).
  pose proof (below_pow2_bits (holdoff_word value v) 26 ltac:(lia)) as Hnew.
  pose proof (below_pow2_bits v 27 ltac:(lia)) as Hold.
  destruct (Z.leb_spec (2 ^ 26) (holdoff_word value v)) as [Hge|Hlt];
    destruct value; cbn [orb]; trivial.
  - symmetry. apply Z.leb_le.
    destruct (Z.le_gt_cases (2 ^ 27) v) as [?|Hsmall]; [assumption|exfalso].
    assert (0 <= holdoff_word false v < 2 ^ 26); [|lia].
    apply Hnew. intros i Hi. destruct (Z.eq_dec i 26) as [->|Hne]; [exact H26|].
    rewrite Hother by assumption. apply (proj1 Hold); lia.
  - exfalso. assert (Hbit : Z.testbit (holdoff_word true v) 26 = false).
    { apply (proj1 Hnew); lia. }
    congruence.
  - symmetry. apply Z.leb_gt.
    assert (0 <= v < 2 ^ 27); [|lia].
    apply Hold. intros i Hi. rewrite <- Hother by lia. apply (proj1 Hnew); lia.
Qed.

(** Writing twice: the second word does not depend on the first. *)
Lemma holdoff_word_twice (v1 v2 : bool) (v : Z) :
  0 <= v < 2 ^ 32 -> holdoff_word v2 (holdoff_word v1 v) = holdoff_word v2 v.
Proof.
  intros Hv. destruct (holdoff_word_bits v1 v Hv) as (Hr1 & H1 & Ho1).
  destruct (holdoff_word_bits v2 _ Hr1) as (_ & H2 & Ho2).
  destruct (holdoff_word_bits v2 v Hv) as (_ & H2' & Ho2').
  apply Z.bits_inj'. intros i _. destruct (Z.eq_dec i 26) as [->|Hne].
  - now rewrite H2, H2'.
  - now rewrite Ho2, Ho1, Ho2' by assumption.
Qed.

Ltac fold_holdoff_word :=
  repeat match goal with
    | |- context [if ?v then Z.lor ?x (Z.shiftl 1 26)
                  else Z.land ?x (Np.invert32 (Z.shiftl 1 26))] =>
        change (if v then Z.lor x (Z.shiftl 1 26)
                else Z.land x (Np.invert32 (Z.shiftl 1 26)))
          with (holdoff_word v x)
    end.

Section GateCompositionProofs.

Variable version : Type.
Variable version_parse : string -> option version.
Variable version_lt : version -> version -> bool.

Abbreviation getter := (_get_trigger_holdoff version version_parse version_lt).
Abbreviation setter := (_set_trigger_holdoff version version_parse version_lt).
Abbreviation too_old := (firmware_too_old version version_parse version_lt).
Abbreviation firmware_parses := (firmware_parses version version_parse version_lt).

(** The getter, one step unfolded: the version check, then the rest. *)
Lemma getter_unfold (b : board) :
  getter b =
    match too_old (idn_firmware b) b with
    | (Return true, b') => (Return false, b')
    | (Return false, b') =>
        (r <- _read_register 58 ;;
         if (String.length (Py.slice_from 2 (Py.bin (Np.uint32 r))) <? 27)%nat
         then ret false
         else c <- lift (Py.index_from_end (Py.bin (Np.uint32 r)) 27) ;;
              ret (Py.bool_of_str c))%py b'
    | (Raise e, b') => (Raise e, b')
    end.
Proof.
  unfold _get_trigger_holdoff, bind at 1, get_idn_firmware. unfold bind at 1.
  destruct (too_old (idn_firmware b) b) as [[[|]|e] b']; reflexivity.
Qed.

(** What follows the register read does not touch the board. *)
Lemma getter_tail_frame (r : Z) (b : board) :
  snd ((if (String.length (Py.slice_from 2 (Py.bin (Np.uint32 r))) <? 27)%nat
        then ret false
        else c <- lift (Py.index_from_end (Py.bin (Np.uint32 r)) 27) ;;
             ret (Py.bool_of_str c))%py b) = b.
Proof.
  destruct (String.length _ <? 27)%nat; [reflexivity|].
  unfold bind, lift, ret. destruct (Py.index_from_end _ 27); reflexivity.
Qed.

(** X1: whatever the firmware identity, the version parser and the
    outcome, [_get_trigger_holdoff] leaves the firmware entry and every
    register as they were, and adds to the access log nothing or one read
    of register 58: it never writes. *)
Theorem get_trigger_holdoff_never_writes (b : board) :
  idn_firmware (snd (getter b)) = idn_firmware b /\
  registers (snd (getter b)) = registers b /\
  (io_log (snd (getter b)) = io_log b \/
   io_log (snd (getter b)) = io_log b ++ [RegRead 58]).
Proof.
  pose proof (too_old_frame version version_parse version_lt (idn_firmware b) b) as Hframe.
  rewrite getter_unfold.
  destruct (too_old (idn_firmware b) b) as [[[|]|e] b']; cbn [snd] in Hframe; subst b'.
  - auto.
  - match goal with
    | |- context [snd ?c] =>
        assert (Hs : snd c = mkBoard (idn_firmware b) (registers b)
                                     (io_log b ++ [RegRead 58]))
    end.
    { unfold bind at 1, _read_register. apply getter_tail_frame. }
    rewrite Hs. cbn [idn_firmware registers io_log]. auto.
  - auto.
Qed.

Lemma setter_keeps_firmware (value : bool) (b : board) :
  firmware_parses b false -> firmware_parses (snd (setter value b)) false.
Proof.
  intros Hfw. rewrite (setter_supported _ _ _ value b Hfw). exact Hfw.
Qed.

(** X2: on supported firmware and a 32-bit register, reading the holdoff
    back right after setting it gives [True] after [True]; after [False] it
    gives [False] only when the register has no bit above bit 26, because
    the getter answers [True] for every register value of [2^26] or more. *)
Theorem set_then_get_trigger_holdoff (value : bool) (b : board) :
  firmware_parses b false -> 0 <= registers b 58 < 2 ^ 32 ->
  fst (getter (snd (setter value b))) = Return (value || (2 ^ 27 <=? registers b 58)).
Proof.
  intros Hfw Hv.
  rewrite (getter_supported _ _ _ _ (setter_keeps_firmware value b Hfw)).
  rewrite (setter_supported _ _ _ value b Hfw). cbn [fst snd registers Z.eqb Pos.eqb].
  fold_holdoff_word.
  destruct (holdoff_word_bits value _ Hv) as (Hrange & _).
  rewrite !uint32_small by (try rewrite uint32_small; assumption).
  f_equal. now apply holdoff_word_ge.
Qed.

(** X3: on supported firmware and a 32-bit register, two calls of the
    setter in a row make four register accesses (read, write, read, write),
    and the second write is the word a single call with the second value
    would have written: the last call wins, a repeated call changes
    nothing, and no register other than 58 changes. *)
Theorem set_trigger_holdoff_twice (v1 v2 : bool) (b : board) :
  firmware_parses b false -> 0 <= registers b 58 < 2 ^ 32 ->
  fst (setter v2 (snd (setter v1 b))) = Return tt /\
  registers (snd (setter v2 (snd (setter v1 b)))) 58
    = registers (snd (setter v2 b)) 58 /\
  (forall a, a <> 58 -> registers (snd (setter v2 (snd (setter v1 b)))) a = registers b a) /\
  io_log (snd (setter v2 (snd (setter v1 b))))
    = io_log b ++ [RegRead 58; RegWrite 58 (holdoff_word v1 (registers b 58));
                   RegRead 58; RegWrite 58 (holdoff_word v2 (registers b 58))].
Proof.
  intros Hfw Hv.
  rewrite (setter_supported _ _ _ v2 _ (setter_keeps_firmware v1 b Hfw)).
  rewrite (setter_supported _ _ _ v1 b Hfw), (setter_supported _ _ _ v2 b Hfw).
  cbn [fst snd registers io_log Z.eqb Pos.eqb].
  fold_holdoff_word.
  destruct (holdoff_word_bits v1 _ Hv) as (Hr1 & _).
  rewrite (uint32_small (holdoff_word v1 _)) by assumption.
  rewrite holdoff_word_twice by assumption.
  split; [reflexivity|]. split; [reflexivity|]. split.
  - intros a Ha. destruct (Z.eqb_spec a 58); [contradiction | reflexivity].
  - rewrite <- !app_assoc. reflexivity.
Qed.

(** X4: the setter is all or nothing: whenever it raises, whatever the
    exception, the board is as it was (no register read, no write); and a
    firmware string the version parser rejects makes it raise the parser's
    [InvalidVersion], not the unsupported-firmware error. *)
Theorem set_trigger_holdoff_raise_untouched (value : bool) (b : board) :
  (forall e, fst (setter value b) = Raise e -> snd (setter value b) = b) /\
  (forall s, idn_firmware b = Some s -> version_parse s = None ->
             setter value b = (Raise (InvalidVersion s), b)).
Proof.
  pose proof (setter_cases version version_parse version_lt value b) as Hcases. split.
  - intros e He.
    destruct (fst (too_old (idn_firmware b) b)) as [[|]|e'].
    + now rewrite Hcases.
    + destruct Hcases as [Hret _]. congruence.
    + now rewrite Hcases.
  - intros s Hfw Hs.
    assert (Hold : fst (too_old (idn_firmware b) b) = Raise (InvalidVersion s)).
    { rewrite Hfw. unfold firmware_too_old, bind, parse. rewrite Hs. reflexivity. }
    rewrite Hold in Hcases. exact Hcases.
Qed.

End GateCompositionProofs.

Lemma set_then_get_trigger_holdoff_witness :
  fst (get_trigger_holdoff_release
         (snd (set_trigger_holdoff_release true (board_with (Some "30.04"%string) 0))))
    = Return true /\
  fst (get_trigger_holdoff_release
         (snd (set_trigger_holdoff_release false (board_with (Some "30.04"%string) 0x0C000000))))
    = Return true /\
  fst (get_trigger_holdoff_release
         (snd (set_trigger_holdoff_release false (board_with (Some "30.04"%string) 0x04000000))))
    = Return false.
Proof.
  assert (Hfw : forall v, ATS9371.firmware_parses (list N) release_parse release_lt
                            (board_with (Some "30.04"%string) v) false).
  { intros v. exists "30.04"%string, [30; 4]%N, [30; 4]%N. repeat split; reflexivity. }
  split; [|split].
  - apply (set_then_get_trigger_holdoff (list N) release_parse release_lt true _ (Hfw 0)).
    cbn. lia.
  - apply (set_then_get_trigger_holdoff (list N) release_parse release_lt false _
             (Hfw 0x0C000000)).
    cbn. lia.
  - apply (set_then_get_trigger_holdoff (list N) release_parse release_lt false _
             (Hfw 0x04000000)).
    cbn. lia.
Defined.

Lemma set_trigger_holdoff_twice_witness :
  io_log (snd (set_trigger_holdoff_release false
                 (snd (set_trigger_holdoff_release true
                         (board_with (Some "31.1"%string) 0x00000001)))))
    = [RegRead 58; RegWrite 58 0x04000001; RegRead 58; RegWrite 58 0x00000001].
Proof.
  assert (Hfw : ATS9371.firmware_parses (list N) release_parse release_lt
                  (board_with (Some "31.1"%string) 1) false).
  { exists "31.1"%string, [31; 1]%N, [30; 4]%N. repeat split; reflexivity. }
  destruct (set_trigger_holdoff_twice (list N) release_parse release_lt true false _ Hfw)
    as (_ & _ & _ & Hlog); [cbn; lia|].
  exact Hlog.
Defined.

Lemma set_trigger_holdoff_raise_untouched_witness :
  set_trigger_holdoff_release true (board_with (Some "abc"%string) 7)
    = (Raise (InvalidVersion "abc"), board_with (Some "abc"%string) 7).
Proof.
  apply (proj2 (set_trigger_holdoff_raise_untouched (list N) release_parse release_lt
                  true (board_with (Some "abc"%string) 7)) "abc"%string);
    reflexivity.
Defined.

End GateComposition.

(** ** The acquisition session: frame, failure and composition *)

Module SessionFacts.
Import RawAcq Frame AcqFacts.

(** *** What a conversion writes *)

(** The world a conversion of a prepared session ends in: the world as it
    was (the numpy conversion with zero records raises at the reshape,
    before it writes), or the two channel arrays converted in place and the
    copies, if any, appended to the heap. *)
Lemma get_alldata_world (st : strategy) (copy : bool) (w : world) (buf : list float)
    (a b : nat) :
  prepared w buf a b ->
  snd (get_alldata st copy w) = w \/
  exists more,
    snd (get_alldata st copy w) = mkWorld (self w) (heap (converted w buf a b) ++ more).
Proof.
  intros Hp.
  assert (Hrun : get_alldata st copy w = (Raise ValueError, w) \/
                 get_alldata st copy w = result_arrays copy a b (converted w buf a b)).
  { destruct (records_per_buffer (self w)) as [|R] eqn:HR.
    - destruct st; cbn [get_alldata].
      + left. exact (numpy_get_no_records copy w buf (prep_buffer _ _ _ _ Hp) HR).
      + right. now apply numba_get_spec.
    - right. apply get_alldata_spec; [exact Hp | lia]. }
  destruct Hrun as [-> | ->]; [now left | right].
  destruct copy.
  - rewrite (result_arrays_copy a b _ _ _ (converted_lookup_A _ _ _ _ Hp)
               (converted_lookup_B _ _ _ _ Hp)).
    cbn [snd]. eexists. rewrite <- app_assoc. reflexivity.
  - rewrite result_arrays_view. cbn [snd]. exists []. rewrite app_nil_r. reflexivity.
Qed.

(** X9: on a prepared session a conversion, by either strategy, with or
    without copy, with any number of records (zero too) and whether it
    returns or raises, leaves the controller as it was (raw buffer,
    geometry, channel references), never shrinks the heap, writes no array
    of the heap other than the two the channel references name, and leaves
    the session prepared. *)
Theorem conversion_writes_channels_only (st : strategy) (copy : bool) (w : world)
    (buf : list float) (a b : nat) :
  prepared w buf a b ->
  conversion_frame w (snd (get_alldata st copy w)) /\
  prepared (snd (get_alldata st copy w)) buf a b.
Proof.
  intros Hp. destruct (get_alldata_world st copy w buf a b Hp) as [-> | [more ->]].
  - split; [|exact Hp]. split; [reflexivity | split; [lia | auto]].
  - split.
    + split; [reflexivity|]. cbn [heap self]. split.
      * rewrite length_app, converted_length. lia.
      * intros l Hl HA HB.
        rewrite lookup_app_l by (rewrite converted_length; exact Hl).
        apply converted_lookup_other.
        -- intros ->. apply HA. exact (prep_cha_A _ _ _ _ Hp).
        -- intros ->. apply HB. exact (prep_cha_B _ _ _ _ Hp).
    + exact (prepared_heap_app _ buf a b more (converted_prepared _ _ _ _ Hp)).
Qed.

(** *** Preparing, delivering, converting *)

Lemma bind_return {S A B : Type} (c : M S A) (k : A -> M S B) (s s' : S) (x : A) :
  c s = (Return x, s') -> bind c k s = k x s'.
Proof. intros H. unfold bind. now rewrite H. Qed.

(** X5: [pre_start_capture], on any controller whose channel count is the
    2 that [__init__] sets, returns and leaves a prepared session: the
    geometry stored, a zero-filled raw buffer of [samples * records * 2]
    cells, and two zero-filled [records x samples] channel arrays at two new
    heap places; every array that was in the heap before is still there
    unchanged, so results handed out by an earlier session are not touched
    and no longer aliased. *)
Theorem pre_start_capture_fresh (samples records buffers : nat) (w : world) :
  number_of_channels (self w) = 2%nat ->
  exists w',
    pre_start_capture samples records buffers w = (Return tt, w') /\
    samples_per_record (self w') = samples /\
    records_per_buffer (self w') = records /\
    buffers_per_acquisition (self w') = buffers /\
    buffer (self w') = Some (zeros (samples * records * 2)) /\
    cha_A_buffer (self w') = Some (length (heap w)) /\
    cha_B_buffer (self w') = Some (S (length (heap w))) /\
    heap w' !! length (heap w) = Some (zeros2 records samples) /\
    heap w' !! S (length (heap w)) = Some (zeros2 records samples) /\
    (forall l, (l < length (heap w))%nat -> heap w' !! l = heap w !! l) /\
    prepared w' (zeros (samples * records * 2)) (length (heap w)) (S (length (heap w))).
Proof.
  intros Hch.
  destruct (pre_start_capture_prepared samples records buffers w Hch)
    as (w' & Hrun & HS & HR & Hp).
  exists w'. split; [exact Hrun|]. split; [exact HS|]. split; [exact HR|].
  assert (Hw' : w' = mkWorld
            (mkController samples records buffers (number_of_channels (self w))
               (Some (zeros (samples * records * number_of_channels (self w))))
               (Some (length (heap w)))
               (Some (length (heap w ++ [zeros2 records samples]))))
            ((heap w ++ [zeros2 records samples]) ++ [zeros2 records samples])).
  { rewrite pre_start_capture_run in Hrun. congruence. }
  split; [rewrite Hw'; reflexivity|].
  split; [rewrite Hw'; cbn; now rewrite Hch|].
  split; [rewrite Hw'; reflexivity|].
  split; [rewrite Hw'; cbn; rewrite length_app; cbn; do 2 f_equal; lia|].
  split; [rewrite Hw'; cbn [heap];
          rewrite lookup_app_l by (rewrite length_app; cbn; lia);
          now apply list_lookup_middle|].
  split; [rewrite Hw'; cbn [heap];
          apply list_lookup_middle; rewrite length_app; cbn; lia|].
  split; [|exact Hp].
  intros l Hl. rewrite Hw'. cbn [heap]. rewrite <- app_assoc. now apply lookup_app_l.
Qed.

Lemma handle_buffer_unfold (d : list float) (bn : option Z) (w : world) :
  handle_buffer d bn w =
    match buffer (self w) with
    | None => (Raise AssertionError, w)
    | Some buf =>
        match iadd buf d with
        | Return buf' => (Return tt, mkWorld (set_buffer (self w) buf') (heap w))
        | Raise e => (Raise e, w)
        end
    end.
Proof.
  unfold handle_buffer, bind at 1, get_state.
  destruct (buffer (self w)) as [buf|]; [|reflexivity].
  unfold bind, lift. destruct (iadd buf d); reflexivity.
Qed.

(** In-place addition succeeds on equal lengths and on a single delivered
    sample, and fails with [ValueError] otherwise. *)
Lemma iadd_cases (buf d : list float) :
  (length d = length buf \/ length d = 1%nat) /\ (exists buf', iadd buf d = Return buf') \/
  (length d <> length buf /\ length d <> 1%nat) /\ iadd buf d = Raise ValueError.
Proof.
  unfold iadd. destruct (decide (length d = length buf)) as [Hlen|Hlen].
  - left. eauto.
  - destruct d as [|x [|y d']].
    + right. cbn in *. auto.
    + left. eauto.
    + right. cbn in *. split; [split; [assumption | lia] | reflexivity].
Qed.

(** X6: [handle_buffer] returns exactly when the raw buffer is allocated
    and the delivery has its length or length one; otherwise it raises
    [AssertionError] (no raw buffer yet) or [ValueError] (lengths that do
    not fit), and in both cases the world is as it was. *)
Theorem handle_buffer_outcomes (d : list float) (bn : option Z) (w : world) :
  (fst (handle_buffer d bn w) = Return tt <->
   exists buf, buffer (self w) = Some buf /\
               (length d = length buf \/ length d = 1%nat)) /\
  (forall e, fst (handle_buffer d bn w) = Raise e ->
     snd (handle_buffer d bn w) = w /\
     (e = AssertionError /\ buffer (self w) = None \/
      e = ValueError /\
      exists buf, buffer (self w) = Some buf /\
                  length d <> length buf /\ length d <> 1%nat)).
Proof.
  rewrite handle_buffer_unfold.
  destruct (buffer (self w)) as [buf|].
  - destruct (iadd_cases buf d) as [[Hfit (buf' & ->)] | [[Hne Hne1] ->]]; cbn [fst snd].
    + split; [|intros e; discriminate]. split; [eauto | reflexivity].
    + split.
      * split; [discriminate|].
        intros (buf0 & [= <-] & [?|?]); contradiction.
      * intros e [= <-]. split; [reflexivity|]. right. eauto.
  - cbn [fst snd]. split.
    + split; [discriminate | intros (buf & ? & _); discriminate].
    + intros e [= <-]. auto.
Qed.


(** X8: before [pre_start_capture] (no raw buffer, no channel arrays) both
    conversions raise [AttributeError], with or without copy, and change
    nothing. *)
Theorem conversion_before_prepare (st : strategy) (copy : bool) (w : world) :
  buffer (self w) = None -> cha_A_buffer (self w) = None ->
  get_alldata st copy w = (Raise AttributeError, w).
Proof.
  intros Hbuf HA. destruct st; cbn [get_alldata].
  - unfold numpy_get_alldata_from_buffer_in_volt, bind, get_state. now rewrite Hbuf.
  - unfold numba_get_alldata_from_buffer_in_volt, bind, get_state, attr. now rewrite HA.
Qed.

Lemma converted_twice (w : world) (buf : list float) (a b : nat) :
  prepared w buf a b -> converted (converted w buf a b) buf a b = converted w buf a b.
Proof.
  intros Hp. pose proof (converted_lookup_A _ _ _ _ Hp) as HA.
  pose proof (converted_lookup_B _ _ _ _ Hp) as HB.
  unfold converted at 1. cbn [self]. destruct (converted w buf a b) as [c h] eqn:Hc.
  cbn [self heap] in *.
  assert (Hself : c = self w) by (unfold converted in Hc; congruence).
  subst c. f_equal.
  rewrite (list_insert_id h a) by exact HA. now apply list_insert_id.
Qed.

(** X10: on a prepared session with at least one record, converting again
    without a delivery in between (either strategy, no copy) returns the
    same two references and leaves the world exactly as the first
    conversion left it. *)
Theorem conversion_idempotent (st st' : strategy) (w : world) (buf : list float)
    (a b : nat) :
  prepared w buf a b -> (0 < records_per_buffer (self w))%nat ->
  get_alldata st' false (snd (get_alldata st false w)) = get_alldata st false w.
Proof.
  intros Hp HR.
  rewrite (get_alldata_spec st false w buf a b Hp HR), result_arrays_view. cbn [snd].
  rewrite (get_alldata_spec st' false _ buf a b (converted_prepared _ _ _ _ Hp) HR).
  rewrite result_arrays_view. now rewrite converted_twice.
Qed.

Lemma all_codes_kept : all_codes_from code_kept_from_zero 0 (Z.to_nat 65536) = true.
Proof. vm_cast_no_check (eq_refl true). Qed.

Lemma code_kept_from_zero_spec (c : Z) :
  is_code c -> (0 + float_of_code c = float_of_code c)%float.
Proof.
  intros Hc. apply Leibniz.eqb_spec.
  apply (all_codes_from_spec code_kept_from_zero _ 0 all_codes_kept c).
  unfold is_code in Hc. rewrite Z2Nat.id; lia.
Qed.

(** X11: one acquisition end to end. On a controller with the channel
    count 2 of [__init__], with at least one record per buffer and a
    delivery of [samples * records * 2] 16-bit codes, the sequence
    [pre_start_capture], [pre_acquire], [handle_buffer], [post_acquire],
    conversion (either strategy, with or without copy) returns two arrays
    in which channel A [r][s] is the voltage of code [(r*samples + s)*2] and
    channel B [r][s] the voltage of code [(r*samples + s)*2 + 1]. *)
Theorem acquire_one_buffer_voltages (samples records buffers : nat) (codes : list Z)
    (bn : option Z) (st : strategy) (copy : bool) (w : world) :
  number_of_channels (self w) = 2%nat -> (0 < records)%nat ->
  length codes = (samples * records * 2)%nat -> Forall is_code codes ->
  exists ra rb w',
    acquire_one_buffer samples records buffers (float_of_code <$> codes) bn st copy w
      = (Return (ra, rb), w') /\
    forall r s, (r < records)%nat -> (s < samples)%nat ->
      array_at w' ra r s
        = Some (signal_to_volt (float_of_code (nth ((r * samples + s) * 2) codes 0))) /\
      array_at w' rb r s
        = Some (signal_to_volt (float_of_code (nth ((r * samples + s) * 2 + 1) codes 0))).
Proof.
  intros Hch HR Hlen Hcodes.
  destruct (pre_start_capture_prepared samples records buffers w Hch)
    as (w1 & Hrun1 & HS1 & HR1 & Hp1).
  set (d := float_of_code <$> codes).
  assert (Hd : length d = length (zeros (samples * records * 2))).
  { unfold d, zeros. rewrite length_fmap, length_replicate. exact Hlen. }
  pose proof (handle_buffer_spec d bn w1 _ (prep_buffer _ _ _ _ Hp1) Hd) as Hrun2.
  pose proof (handle_buffer_prepared d w1 _ _ _ Hp1 Hd) as Hp2.
  assert (Hsum : zip_with PrimFloat.add (zeros (samples * records * 2)) d = d).
  { unfold zeros, d. rewrite zip_with_replicate_l by (rewrite length_fmap; lia).
    rewrite <- list_fmap_compose. apply Forall_fmap_ext.
    eapply Forall_impl; [exact Hcodes|]. intros c Hc. cbn.
    now apply code_kept_from_zero_spec. }
  rewrite Hsum in Hp2, Hrun2.
  destruct (get_alldata_result st copy _ d _ _ Hp2)
    as (ra & rb & w' & Hrun3 & HA & HB & _).
  { cbn. rewrite HR1. exact HR. }
  cbn [self set_buffer records_per_buffer samples_per_record] in HA, HB.
  rewrite HS1, HR1 in HA, HB.
  exists ra, rb, w'. split.
  - unfold acquire_one_buffer.
    rewrite (bind_return _ _ _ _ _ Hrun1). unfold pre_acquire.
    rewrite (bind_return _ _ w1 w1 tt eq_refl).
    rewrite (bind_return _ _ _ _ _ Hrun2). unfold post_acquire.
    rewrite (bind_return (ret tt) _ _ _ tt eq_refl). exact Hrun3.
  - intros r s Hr Hs. unfold array_at. rewrite HA, HB. cbn.
    rewrite !demux_spec_item, Nat.add_0_r by assumption.
    unfold d. change (float_of_code <$> codes) with (map float_of_code codes).
    change 0%float with (float_of_code 0). rewrite !map_nth. split; reflexivity.
Qed.

(** X12: on a prepared session with zero records per buffer the raw buffer
    is empty, the numpy conversion raises [ValueError] and changes nothing,
    and the compiled conversion returns two references to arrays without
    rows. *)
Theorem zero_records_conversions (copy : bool) (w : world) (buf : list float)
    (a b : nat) :
  prepared w buf a b -> records_per_buffer (self w) = 0%nat ->
  buf = [] /\
  numpy_get_alldata_from_buffer_in_volt copy w = (Raise ValueError, w) /\
  exists ra rb w',
    numba_get_alldata_from_buffer_in_volt copy w = (Return (ra, rb), w') /\
    heap w' !! ra = Some [] /\ heap w' !! rb = Some [].
Proof.
  intros Hp HR. split; [|split].
  - pose proof (prep_length _ _ _ _ Hp) as Hlen. rewrite HR in Hlen.
    destruct buf; [reflexivity | cbn in Hlen; lia].
  - exact (numpy_get_no_records copy w buf (prep_buffer _ _ _ _ Hp) HR).
  - rewrite (numba_get_spec copy w buf a b Hp).
    pose proof (converted_lookup_A _ _ _ _ Hp) as HA.
    pose proof (converted_lookup_B _ _ _ _ Hp) as HB.
    rewrite HR in HA, HB. change (demux_spec _ buf 0 _) with (@nil (list float)) in HA, HB.
    destruct copy.
    + rewrite (result_arrays_copy a b _ _ _ HA HB).
      do 3 eexists. split; [reflexivity|]. cbn [heap]. split.
      * rewrite <- app_assoc. now apply list_lookup_middle.
      * apply list_lookup_middle. rewrite length_app. cbn. lia.
    + rewrite result_arrays_view. do 3 eexists. split; [reflexivity|]. auto.
Qed.

(** X13: the order in which the records are processed does not show:
    for a buffer of the geometry's length and channel arrays of its shape,
    the two loops run over any permutation of the record indices ([prange]
    leaves the order open) return, and return the arrays of
    [process_buffer], which are those of the specification's algorithm,
    whatever the channel arrays held before. *)
Theorem prange_order_irrelevant (schedule : list nat) (buf : list float)
    (A B : list (list float)) (R S : nat) :
  schedule ≡ₚ range R ->
  length buf = (S * R * 2)%nat -> has_shape A R S -> has_shape B R S ->
  process_records schedule buf A B S = process_buffer buf A B R S /\
  process_records schedule buf A B S
    = Return (demux_spec 0 buf R S, demux_spec 1 buf R S).
Proof.
  intros Hperm Hlen HA HB.
  assert (Hrun : process_records schedule buf A B S
                 = Return (demux_spec 0 buf R S, demux_spec 1 buf R S)).
  { apply process_records_spec; try assumption.
    intros r. rewrite Hperm. unfold range. rewrite elem_of_seq. lia. }
  split; [|exact Hrun]. rewrite Hrun. symmetry. now apply process_buffer_spec.
Qed.

(** *** Floating-point addition and the order of deliveries *)

Lemma SFadd_comm (prec emax : Z) (x y : spec_float) :
  SFadd prec emax x y = SFadd prec emax y x.
Proof.
  destruct x as [sx|sx| |sx mx ex], y as [sy|sy| |sy my ey]; try reflexivity;
    try (destruct sx, sy; reflexivity).
  unfold SFadd. rewrite (Z.min_comm ey ex). f_equal. apply Z.add_comm.
Qed.

Lemma float_add_comm (x y : float) : (x + y = y + x)%float.
Proof. apply Prim2SF_inj. rewrite !FloatAxioms.add_spec. apply SFadd_comm. Qed.

(** Two samples into a zeroed cell, in either order. *)
Lemma zero_plus_two (x y : float) : ((0 + x) + y = (0 + y) + x)%float.
Proof.
  apply Prim2SF_inj.
  rewrite (FloatAxioms.add_spec (0 + x)), (FloatAxioms.add_spec (0 + y)), !zero_plus.
  destruct (Prim2SF x) as [sx|sx| |sx mx ex], (Prim2SF y) as [sy|sy| |sy my ey];
    try apply SFadd_comm; try reflexivity; try (destruct sx, sy; reflexivity);
    try (destruct sx; reflexivity); try (destruct sy; reflexivity).
Qed.

(** X14: two deliveries of matching length into a zeroed raw buffer
    commute, whatever floats they hold: the raw buffer after the first then
    the second is the raw buffer after the second then the first. *)
Theorem deliveries_commute_from_zero (d1 d2 : list float) (bn1 bn2 : option Z)
    (w : world) :
  buffer (self w) = Some (zeros (length d1)) -> length d2 = length d1 ->
  (handle_buffer d1 bn1 ;;; handle_buffer d2 bn2)%py w
    = (handle_buffer d2 bn2 ;;; handle_buffer d1 bn1)%py w /\
  fst ((handle_buffer d1 bn1 ;;; handle_buffer d2 bn2)%py w) = Return tt.
Proof.
  intros Hbuf Hlen.
  assert (Hz : length (zeros (length d1)) = length d1)
    by (unfold zeros; apply length_replicate).
  assert (Hstep : forall (d d' : list float) (bn bn' : option Z),
            length d = length d1 -> length d' = length d1 ->
            (handle_buffer d bn ;;; handle_buffer d' bn')%py w
              = (Return tt,
                 mkWorld (set_buffer (self w)
                            (zip_with PrimFloat.add
                               (zip_with PrimFloat.add (zeros (length d1)) d) d'))
                         (heap w))).
  { intros d d' bn bn' Hd Hd'.
    rewrite (bind_return _ _ _ _ _
               (handle_buffer_spec d bn w _ Hbuf ltac:(rewrite Hz; exact Hd))).
    rewrite (handle_buffer_spec d' bn' _ (zip_with PrimFloat.add (zeros (length d1)) d));
      [reflexivity | reflexivity |].
    rewrite length_zip_with, Hz. lia. }
  rewrite (Hstep d1 d2 bn1 bn2 eq_refl Hlen), (Hstep d2 d1 bn2 bn1 Hlen eq_refl).
  split; [|reflexivity]. do 3 f_equal.
  apply list_eq. intros k. rewrite !lookup_zip_with.
  unfold zeros. destruct (decide (k < length d1)%nat) as [Hk|Hk].
  - rewrite lookup_replicate_2 by exact Hk. cbn.
    destruct (d1 !! k) as [x|], (d2 !! k) as [y|]; cbn; try reflexivity.
    f_equal. apply zero_plus_two.
  - rewrite (proj2 (lookup_ge_None (replicate (length d1) 0%float) k))
      by (rewrite length_replicate; lia).
    reflexivity.
Qed.

(** With three deliveries of arbitrary floats the order can show: float
    addition is not associative. *)
Lemma three_deliveries_order :
  (((0 + 0x1p53) + 1) + 1 <> ((0 + 1) + 1) + 0x1p53)%float.
Proof. vm_compute. intros H. apply (f_equal Prim2SF) in H. discriminate H. Qed.

(** *** Witnesses *)

Lemma pre_start_capture_fresh_witness :
  exists w',
    pre_start_capture 256 2 1 small_session = (Return tt, w') /\
    buffer (self w') = Some (zeros 1024) /\
    cha_A_buffer (self w') = Some 2%nat /\ cha_B_buffer (self w') = Some 3%nat /\
    heap w' !! 0%nat = heap small_session !! 0%nat.
Proof.
  destruct (pre_start_capture_fresh 256 2 1 small_session eq_refl)
    as (w' & Hrun & _ & _ & _ & Hbuf & HA & HB & _ & _ & Hold & _).
  exists w'. split; [exact Hrun|]. split; [exact Hbuf|]. split; [exact HA|].
  split; [exact HB|]. apply Hold. change (0 < 2)%nat. lia.
Defined.

Lemma handle_buffer_outcomes_witness :
  snd (handle_buffer small_raw (Some 0) init_world) = init_world /\
  snd (handle_buffer [1%float; 2%float] (Some 0) small_session) = small_session.
Proof.
  split.
  - apply (proj2 (handle_buffer_outcomes small_raw (Some 0) init_world) AssertionError).
    reflexivity.
  - apply (proj2 (handle_buffer_outcomes [1%float; 2%float] (Some 0) small_session)
             ValueError).
    reflexivity.
Defined.


Lemma conversion_before_prepare_witness :
  get_alldata Numpy true init_world = (Raise AttributeError, init_world) /\
  get_alldata Numba false init_world = (Raise AttributeError, init_world).
Proof.
  split; apply conversion_before_prepare; reflexivity.
Defined.

Lemma conversion_idempotent_witness :
  get_alldata Numpy false (snd (get_alldata Numba false small_session))
    = get_alldata Numba false small_session.
Proof.
  apply (conversion_idempotent Numba Numpy small_session small_raw 0 1
           small_session_prepared).
  change (0 < 2)%nat. lia.
Defined.

Lemma acquire_one_buffer_voltages_witness :
  exists ra rb w',
    acquire_one_buffer 2 2 1 (float_of_code <$> [32760; 32760; 32840; 32680; 0; 65535; 100; 200])
      (Some 0) Numpy true init_world = (Return (ra, rb), w') /\
    array_at w' ra 0 1 = Some (signal_to_volt (float_of_code 32840)) /\
    array_at w' rb 1 0 = Some (signal_to_volt (float_of_code 65535)).
Proof.
  destruct (acquire_one_buffer_voltages 2 2 1
              [32760; 32760; 32840; 32680; 0; 65535; 100; 200] (Some 0) Numpy true
              init_world eq_refl)
    as (ra & rb & w' & Hrun & Hcells).
  - lia.
  - reflexivity.
  - repeat constructor; unfold is_code; lia.
  - exists ra, rb, w'. split; [exact Hrun|]. split.
    + apply (Hcells 0%nat 1%nat); lia.
    + apply (Hcells 1%nat 0%nat); lia.
Defined.

Lemma conversion_writes_channels_only_witness :
  (conversion_frame small_session (snd (get_alldata Numba true small_session)) /\
   prepared (snd (get_alldata Numba true small_session)) small_raw 0 1) /\
  (conversion_frame empty_session (snd (get_alldata Numpy false empty_session)) /\
   prepared (snd (get_alldata Numpy false empty_session)) [] 0 1).
Proof.
  split.
  - exact (conversion_writes_channels_only Numba true small_session small_raw 0 1
             small_session_prepared).
  - exact (conversion_writes_channels_only Numpy false empty_session [] 0 1
             empty_session_prepared).
Defined.

Lemma zero_records_conversions_witness :
  numpy_get_alldata_from_buffer_in_volt false empty_session
    = (Raise ValueError, empty_session).
Proof.
  apply (zero_records_conversions false empty_session [] 0 1 empty_session_prepared).
  reflexivity.
Defined.

Lemma prange_order_irrelevant_witness :
  process_records [1%nat; 0%nat] small_raw (zeros2 2 2) (zeros2 2 2) 2
    = process_buffer small_raw (zeros2 2 2) (zeros2 2 2) 2 2.
Proof.
  apply (prange_order_irrelevant [1%nat; 0%nat] small_raw (zeros2 2 2) (zeros2 2 2) 2 2).
  - apply perm_swap.
  - reflexivity.
  - apply zeros2_shape.
  - apply zeros2_shape.
Defined.

Lemma deliveries_commute_from_zero_witness :
  (handle_buffer small_raw (Some 0) ;;; handle_buffer (zeros 8) (Some 1))%py
    small_empty_session
  = (handle_buffer (zeros 8) (Some 1) ;;; handle_buffer small_raw (Some 0))%py
      small_empty_session.
Proof.
  apply (deliveries_commute_from_zero small_raw (zeros 8) (Some 0) (Some 1)
           small_empty_session); reflexivity.
Defined.

End SessionFacts.

(** ** The lifetime of the arrays handed out *)

Module LifetimeFacts.
Import RawAcq Frame Lifetime AcqFacts SessionFacts.

Lemma bystanders_kept_refl (w : world) : bystanders_kept w w.
Proof. split; [lia | auto]. Qed.

Lemma bystanders_kept_same_heap (w0 w : world) (c : controller) :
  cha_A_buffer c = cha_A_buffer (self w) -> cha_B_buffer c = cha_B_buffer (self w) ->
  bystanders_kept w0 w -> bystanders_kept w0 (mkWorld c (heap w)).
Proof.
  intros HA HB [Hlen Hkeep]. split; [exact Hlen|]. intros l Hl Hnot.
  destruct (Hkeep l Hl Hnot) as [Hsame Hw]. split; [exact Hsame|].
  unfold is_channel in *. cbn [self]. now rewrite HA, HB.
Qed.

Lemma iadd_length (buf d buf' : list float) :
  iadd buf d = Return buf' -> length buf' = length buf.
Proof.
  unfold iadd. destruct (decide (length d = length buf)) as [Hlen|Hlen].
  - intros [= <-]. rewrite length_zip_with. lia.
  - destruct d as [|x [|y d']]; try discriminate.
    intros [= <-]. apply length_map.
Qed.

Lemma prepared_set_buffer (w : world) (buf buf' : list float) (a b : nat) :
  prepared w buf a b -> length buf' = length buf ->
  prepared (mkWorld (set_buffer (self w) buf') (heap w)) buf' a b.
Proof.
  intros [Hch Hbuf Hlen HA HB Hab HsA HsB] Hlen'.
  split; cbn [self heap set_buffer samples_per_record records_per_buffer
              number_of_channels buffer cha_A_buffer cha_B_buffer]; try assumption.
  - reflexivity.
  - lia.
Qed.

Lemma session_state_channels (w : world) :
  session_state w -> number_of_channels (self w) = 2%nat.
Proof.
  intros [-> | (buf & a & b & Hp)]; [reflexivity | exact (prep_channels _ _ _ _ Hp)].
Qed.

(** One operation: the session stays in a state between calls, and what
    was a bystander stays one. The invariant is what keeps the indices of
    the compiled loop inside the channel arrays. *)
Lemma bystanders_kept_step (o : session_op) (w0 w : world) :
  session_state w -> bystanders_kept w0 w ->
  session_state (snd (run_session_op o w)) /\
  bystanders_kept w0 (snd (run_session_op o w)).
Proof.
  intros Hst Hk. pose proof Hk as [Hlen Hkeep].
  destruct o as [samples records buffers | [d bn | st copy]]; cbn [run_session_op run_op].
  - split.
    + destruct (pre_start_capture_prepared samples records buffers w
                  (session_state_channels w Hst)) as (w' & -> & _ & _ & Hp).
      right. do 3 eexists. exact Hp.
    + rewrite pre_start_capture_run. cbn [snd]. split.
      * cbn [heap]. rewrite !length_app. lia.
      * intros l Hl Hnot. destruct (Hkeep l Hl Hnot) as [Hsame _]. split.
        -- cbn [heap]. rewrite <- app_assoc, lookup_app_l by lia. exact Hsame.
        -- unfold is_channel. cbn [self cha_A_buffer cha_B_buffer].
           rewrite length_app. cbn. intros [[= ?]|[= ?]]; lia.
  - rewrite handle_buffer_unfold.
    destruct (buffer (self w)) as [buf|] eqn:Hbuf; [|now split].
    destruct (iadd buf d) as [buf'|e] eqn:Hadd; [|now split].
    cbn [snd]. split; [|now apply bystanders_kept_same_heap].
    destruct Hst as [Hinit | (buf0 & a & b & Hp)].
    + rewrite Hinit in Hbuf. discriminate.
    + right. exists buf', a, b.
      pose proof (prep_buffer _ _ _ _ Hp) as Hbuf0. rewrite Hbuf in Hbuf0.
      injection Hbuf0 as <-.
      apply (prepared_set_buffer w buf buf' a b Hp).
      now apply iadd_length with (d := d).
  - assert (Hsnd : snd ((get_alldata st copy ;;; ret tt)%py w)
                   = snd (get_alldata st copy w)).
    { unfold bind. destruct (get_alldata st copy w) as [[r|e] w']; reflexivity. }
    rewrite Hsnd.
    destruct Hst as [Hinit | (buf & a & b & Hp)].
    + assert (Hraise : get_alldata st copy w = (Raise AttributeError, w)).
      { destruct st; cbn [get_alldata].
        - unfold numpy_get_alldata_from_buffer_in_volt, bind, get_state.
          now rewrite Hinit.
        - unfold numba_get_alldata_from_buffer_in_volt, bind, get_state, attr.
          now rewrite Hinit. }
      rewrite Hraise. cbn [snd]. split; [now left | exact Hk].
    + destruct (get_alldata_world st copy w buf a b Hp) as [-> | [more ->]].
      * split; [right; exists buf, a, b; exact Hp | exact Hk].
      * split.
        -- right. exists buf, a, b.
           exact (prepared_heap_app _ buf a b more (converted_prepared _ _ _ _ Hp)).
        -- split; [cbn [heap]; rewrite length_app, converted_length; lia|].
           intros l Hl Hnot. destruct (Hkeep l Hl Hnot) as [Hsame Hw]. split.
           ++ cbn [heap]. rewrite lookup_app_l by (rewrite converted_length; lia).
              rewrite converted_lookup_other; [exact Hsame | |];
                intros ->; apply Hw; unfold is_channel.
              ** left. exact (prep_cha_A _ _ _ _ Hp).
              ** right. exact (prep_cha_B _ _ _ _ Hp).
           ++ exact Hw.
Qed.

(** X15: from a controller as [__init__] left it or prepared, whatever a
    caller does afterwards (sessions prepared again, deliveries,
    conversions by either strategy, in any number and order, each returning
    or raising), the controller is again as [__init__] left it or prepared,
    and an array of the heap that is not one of the controller's two
    channel arrays is never written and never becomes a channel array: what
    [copy=True] handed out stays as it was for good. *)
Theorem bystanders_never_written (ops : list session_op) (w : world) :
  session_state w ->
  session_state (snd (run_session ops w)) /\
  bystanders_kept w (snd (run_session ops w)).
Proof.
  intros Hst.
  assert (Hgen : forall w0 w1, session_state w1 -> bystanders_kept w0 w1 ->
                   session_state (snd (run_session ops w1)) /\
                   bystanders_kept w0 (snd (run_session ops w1))).
  { induction ops as [|o ops IH]; intros w0 w1 Hs Hk; [now split|].
    cbn [run_session]. unfold bind.
    pose proof (bystanders_kept_step o w0 w1 Hs Hk) as Hstep.
    destruct (run_session_op o w1) as [[[]|e] w2]; cbn [snd] in Hstep |- *.
    - now apply IH.
    - exact Hstep. }
  apply Hgen; [exact Hst | apply bystanders_kept_refl].
Qed.

(** A prepared session of two records of two samples, one delivery in, and
    a third array in the heap that is not the controller's. *)
Lemma bystanders_never_written_witness :
  let w := mkWorld (self small_session) (heap small_session ++ [[[1%float; 2%float]]]) in
  let w' := snd (run_session
                   [Use (Convert Numba true); Use (Deliver small_raw (Some 1));
                    Use (Convert Numpy false); Prepare 3 1 1;
                    Use (Deliver [1%float] None); Use (Convert Numba false)] w) in
  session_state w' /\ bystanders_kept w w'.
Proof.
  apply (bystanders_never_written _
           (mkWorld (self small_session) (heap small_session ++ [[[1%float; 2%float]]]))).
  right. exists small_raw, 0%nat, 1%nat.
  exact (prepared_heap_app small_session small_raw 0 1 [[[1%float; 2%float]]]
           small_session_prepared).
Defined.

End LifetimeFacts.

(** ** The val-mapped parameters *)

Module ConfigFacts.
Import Config.

Lemma pyval_eqb_eq (x y : pyval) : pyval_eqb x y = true <-> x = y.
Proof.
  destruct x as [a|a|a], y as [b|b|b]; cbn; split; try discriminate.
  - intros H. apply Z.eqb_eq in H. now subst.
  - intros [= ->]. apply Z.eqb_refl.
  - intros H. apply String.eqb_eq in H. now subst.
  - intros [= ->]. apply String.eqb_refl.
  - intros H. apply Leibniz.eqb_spec in H. now subst.
  - intros [= ->]. now apply Leibniz.eqb_spec.
Qed.

Lemma memb_elem_of (x : pyval) (l : list pyval) : memb x l = true <-> x ∈ l.
Proof.
  induction l as [|y l IH]; cbn.
  - split; [discriminate | intros H; inversion H].
  - rewrite orb_true_iff, pyval_eqb_eq, IH, elem_of_cons. reflexivity.
Qed.

Lemma nodupb_NoDup (l : list pyval) : nodupb l = true -> NoDup l.
Proof.
  induction l as [|x l IH]; cbn; intros H; [constructor|].
  apply andb_true_iff in H. destruct H as [Hx Hl].
  constructor; [|now apply IH].
  intros Hin. apply memb_elem_of in Hin. rewrite Hin in Hx. discriminate.
Qed.

Lemma well_formedb_spec (p : mapped_parameter) :
  well_formedb p = true ->
  NoDup (fst <$> val_mapping p) /\ NoDup (snd <$> val_mapping p) /\
  initial_value p ∈ (fst <$> val_mapping p).
Proof.
  unfold well_formedb. rewrite !andb_true_iff. intros [[Hk Hv] Hi].
  split; [now apply nodupb_NoDup|]. split; [now apply nodupb_NoDup|].
  now apply memb_elem_of.
Qed.

Lemma channel_parameters_well_formed (i : nat) :
  Forall (fun p => well_formedb p = true) (channel_parameters i).
Proof. repeat constructor. Qed.

Lemma trigger_parameters_well_formed (i : nat) :
  Forall (fun p => well_formedb p = true) (trigger_parameters i).
Proof. unfold trigger_parameters. destruct (i =? 1)%nat; repeat constructor. Qed.

Lemma Forall_flat_map_all {A B : Type} (P : B -> Prop) (f : A -> list B) (l : list A) :
  (forall x, Forall P (f x)) -> Forall P (flat_map f l).
Proof.
  intros Hf. induction l as [|x l IH]; cbn; [constructor|].
  apply Forall_app. split; [apply Hf | exact IH].
Qed.

(** X16: every parameter the constructor declares with a [val_mapping],
    for any channel count of the base class, has a mapping without a
    repeated key and without a repeated raw value (so a raw value read back
    from the board names one setting), and an initial value that is one of
    the keys of its mapping. *)
Theorem val_mappings_well_formed (channels : nat) (p : mapped_parameter) :
  p ∈ mapped_parameters channels ->
  NoDup (fst <$> val_mapping p) /\ NoDup (snd <$> val_mapping p) /\
  initial_value p ∈ (fst <$> val_mapping p).
Proof.
  intros Hp. apply well_formedb_spec. revert p Hp. apply Forall_forall.
  unfold mapped_parameters.
  apply Forall_app_2; [repeat constructor|].
  apply Forall_app_2; [apply Forall_flat_map_all, channel_parameters_well_formed|].
  apply Forall_app_2; [repeat constructor|].
  apply Forall_app_2; [apply Forall_flat_map_all, trigger_parameters_well_formed|].
  repeat constructor.
Qed.

Lemma sample_rate_same_order :
  forallb (fun e1 => forallb (same_order e1) sample_rate_val_mapping)
    sample_rate_val_mapping = true.
Proof. vm_compute. reflexivity. Qed.

Lemma sample_rate_in_range :
  forallb (fun e => match e with
                    | (PyInt r, PyInt c) =>
                        (1000 <=? r) && (r <=? 1000000000) && (1 <=? c) && (c <=? 53)
                    | _ => true
                    end) sample_rate_val_mapping = true.
Proof. vm_compute. reflexivity. Qed.

(** X17: in the internal sample-rate mapping the codes grow with the
    rates: of two rates in S/s the larger one has the larger code; and the
    rates run from 1 kS/s to 1 GS/s, their codes from 1 to 53. *)
Theorem sample_rate_codes_increase (r1 c1 r2 c2 : Z) :
  (PyInt r1, PyInt c1) ∈ sample_rate_val_mapping ->
  (PyInt r2, PyInt c2) ∈ sample_rate_val_mapping ->
  (r1 < r2 <-> c1 < c2) /\ 1000 <= r1 <= 1000000000 /\ 1 <= c1 <= 53.
Proof.
  intros H1 H2. apply list_elem_of_In in H1, H2.
  pose proof (proj1 (forallb_forall _ _) sample_rate_same_order _ H1) as Hrow.
  pose proof (proj1 (forallb_forall _ _) Hrow _ H2) as Hcell.
  pose proof (proj1 (forallb_forall _ _) sample_rate_in_range _ H1) as Hrange.
  cbn in Hcell, Hrange. apply Bool.eqb_prop in Hcell.
  rewrite !andb_true_iff, !Z.leb_le in Hrange.
  split; [|lia].
  rewrite <- !Z.ltb_lt. now rewrite Hcell.
Qed.

Lemma val_mappings_well_formed_witness :
  NoDup (fst <$> sample_rate_val_mapping) /\ NoDup (snd <$> sample_rate_val_mapping) /\
  PyStr "UNDEFINED" ∈ (fst <$> sample_rate_val_mapping).
Proof.
  apply (val_mappings_well_formed 2 sample_rate).
  apply list_elem_of_In. cbn. auto.
Defined.

Lemma sample_rate_codes_increase_witness :
  (500000000 < 1000000000 <-> 48 < 53) /\
  1000 <= 500000000 <= 1000000000 /\ 1 <= 48 <= 53.
Proof.
  apply (sample_rate_codes_increase 500000000 48 1000000000 53);
    apply list_elem_of_In; cbn; auto 30.
Defined.

End ConfigFacts.
